(** * OTA firmware encryption tool ([bt_audio_sink/tools/encrypt_firmware.py])

    A shallow embedding of the host-side tool that produces and reads the
    encrypted release artifact [IV || AES-256-CBC(PKCS#7(firmware))], and the
    properties of the envelope that the specification relies on.

    The tool is a thin driver over pycryptodome, which is not part of the
    repository. The three library entry points it calls are modelled from
    their published definitions: [AES.new(key, MODE_CBC, iv)] with its
    [encrypt] and [decrypt] (FIPS 197 and SP 800-38A, with the library's
    argument checks), [pad] and [unpad] (PKCS#7, with the library's checks
    in their order), and [get_random_bytes] (octets taken from a supply that
    is part of the world). The model is checked against the published test
    vectors below.

    Layout:
    - [Bytes]   : octets, XOR, exhaustive checking over the 256 octets;
    - [GF256]   : multiplication in GF(2^8) modulo x^8+x^4+x^3+x+1;
    - [AES]     : the block cipher;
    - [Padding] : [Crypto.Util.Padding.pad] and [unpad];
    - [CBC]     : the CBC cipher object;
    - the world (files and random octets) and the monad of the tool;
    - the tool: [encrypt_firmware], [decrypt_firmware], [generate_new_key],
      [main];
    - properties: test vectors, the cipher and the padding are inverted by
      their inverses, what a run of each function does, counting keys;
    - the claims of the specification. *)

From Stdlib Require Import NArith ZArith List Bool Lia String Ascii.
From Stdlib Require Import Strings.Byte.
From stdpp Require Import base option list strings gmap.

Import ListNotations.
Local Open Scope nat_scope.
Local Open Scope list_scope.

(* ===================================================================== *)
(** ** Octets *)
(* ===================================================================== *)

Module Bytes.

#[global] Instance byte_eq_dec : EqDecision byte := Byte.byte_eq_dec.

(** Python's [bchr]: the octet with a given value (values are below 256
    wherever the tool uses it). *)
Definition bchr (n : nat) : byte :=
  match Byte.of_nat n with Some b => b | None => x00 end.

Definition bord (b : byte) : nat := Byte.to_nat b.

Definition of_N_trunc (n : N) : byte :=
  match Byte.of_N (N.land n 255) with Some b => b | None => x00 end.

(** Bitwise exclusive or of two octets. *)
Definition bxor (a b : byte) : byte :=
  of_N_trunc (N.lxor (Byte.to_N a) (Byte.to_N b)).

(** The 256 octets, in increasing order. *)
Definition all_bytes : list byte := List.map bchr (List.seq 0 256).

Definition for_all_bytes (P : byte -> bool) : bool := List.forallb P all_bytes.

Definition for_all_bytes2 (P : byte -> byte -> bool) : bool :=
  for_all_bytes (fun a => for_all_bytes (P a)).

Definition xor_bytes (l1 l2 : list byte) : list byte :=
  List.map (fun '(a, b) => bxor a b) (List.combine l1 l2).

End Bytes.
Export Bytes.

(* ===================================================================== *)
(** ** Arithmetic in GF(2^8) *)
(* ===================================================================== *)

Module GF256.

(** Multiplication by x, reduced modulo x^8 + x^4 + x^3 + x + 1. *)
Definition xtime (b : byte) : byte :=
  let n := N.shiftl (Byte.to_N b) 1 in
  of_N_trunc (if N.testbit n 8 then N.lxor n 283 else n).

(** Shift-and-add product; [bits] counts the bits of [b] still to visit. *)
Fixpoint gmul_loop (bits : nat) (a : byte) (b : N) (acc : byte) : byte :=
  match bits with
  | O => acc
  | S bits' =>
      gmul_loop bits' (xtime a) (N.shiftr b 1)
                (if N.testbit b 0 then bxor acc a else acc)
  end.

Definition gmul (a b : byte) : byte := gmul_loop 8 a (Byte.to_N b) x00.

(** Multiplicative inverse, with 0 mapped to 0: a^254. *)
Definition ginv (a : byte) : byte :=
  let a2 := gmul a a in
  let a4 := gmul a2 a2 in
  let a8 := gmul a4 a4 in
  let a16 := gmul a8 a8 in
  let a32 := gmul a16 a16 in
  let a64 := gmul a32 a32 in
  let a128 := gmul a64 a64 in
  gmul a128 (gmul a64 (gmul a32 (gmul a16 (gmul a8 (gmul a4 a2))))).

(** Rotation of an octet to the left. *)
Definition rotl8 (b : byte) (k : N) : byte :=
  let n := Byte.to_N b in
  of_N_trunc (N.lor (N.shiftl n k) (N.shiftr n (8 - k))).

End GF256.
Export GF256.

(* ===================================================================== *)
(** ** The AES block cipher (FIPS 197), as provided by [Crypto.Cipher.AES] *)
(* ===================================================================== *)

Module AES.

Definition block_size : nat := 16.

(** A column of the state: four octets. *)
Record word : Type := W { w0 : byte; w1 : byte; w2 : byte; w3 : byte }.

(** The state: four columns; octet [r + 4c] of a block is row [r] of
    column [c]. *)
Record state : Type := St { col0 : word; col1 : word; col2 : word; col3 : word }.

Definition map_word (f : byte -> byte) (w : word) : word :=
  W (f (w0 w)) (f (w1 w)) (f (w2 w)) (f (w3 w)).

Definition map_state (f : word -> word) (s : state) : state :=
  St (f (col0 s)) (f (col1 s)) (f (col2 s)) (f (col3 s)).

Definition xor_word (a b : word) : word :=
  W (bxor (w0 a) (w0 b)) (bxor (w1 a) (w1 b))
    (bxor (w2 a) (w2 b)) (bxor (w3 a) (w3 b)).

Definition xor_state (a b : state) : state :=
  St (xor_word (col0 a) (col0 b)) (xor_word (col1 a) (col1 b))
     (xor_word (col2 a) (col2 b)) (xor_word (col3 a) (col3 b)).

(** *** The S-box: inversion in GF(2^8) followed by the affine map. *)

Definition SubByte (b : byte) : byte :=
  let i := ginv b in
  bxor (bxor (bxor (bxor (bxor i (rotl8 i 1)) (rotl8 i 2)) (rotl8 i 3))
             (rotl8 i 4)) x63.

Definition InvSubByte (s : byte) : byte :=
  ginv (bxor (bxor (bxor (rotl8 s 1) (rotl8 s 3)) (rotl8 s 6)) x05).

Definition SubWord : word -> word := map_word SubByte.
Definition RotWord (w : word) : word := W (w1 w) (w2 w) (w3 w) (w0 w).

(** *** The four round transformations and their inverses. *)

Definition SubBytes : state -> state := map_state (map_word SubByte).
Definition InvSubBytes : state -> state := map_state (map_word InvSubByte).

Definition ShiftRows (s : state) : state :=
  let '(St a b c d) := s in
  St (W (w0 a) (w1 b) (w2 c) (w3 d)) (W (w0 b) (w1 c) (w2 d) (w3 a))
     (W (w0 c) (w1 d) (w2 a) (w3 b)) (W (w0 d) (w1 a) (w2 b) (w3 c)).

Definition InvShiftRows (s : state) : state :=
  let '(St a b c d) := s in
  St (W (w0 a) (w1 d) (w2 c) (w3 b)) (W (w0 b) (w1 a) (w2 d) (w3 c))
     (W (w0 c) (w1 b) (w2 a) (w3 d)) (W (w0 d) (w1 c) (w2 b) (w3 a)).

Definition xor4 (a b c d : byte) : byte := bxor (bxor (bxor a b) c) d.

Definition MixColumn (w : word) : word :=
  let '(W a b c d) := w in
  W (xor4 (gmul x02 a) (gmul x03 b) c d)
    (xor4 a (gmul x02 b) (gmul x03 c) d)
    (xor4 a b (gmul x02 c) (gmul x03 d))
    (xor4 (gmul x03 a) b c (gmul x02 d)).

Definition InvMixColumn (w : word) : word :=
  let '(W a b c d) := w in
  W (xor4 (gmul x0e a) (gmul x0b b) (gmul x0d c) (gmul x09 d))
    (xor4 (gmul x09 a) (gmul x0e b) (gmul x0b c) (gmul x0d d))
    (xor4 (gmul x0d a) (gmul x09 b) (gmul x0e c) (gmul x0b d))
    (xor4 (gmul x0b a) (gmul x0d b) (gmul x09 c) (gmul x0e d)).

Definition MixColumns : state -> state := map_state MixColumn.
Definition InvMixColumns : state -> state := map_state InvMixColumn.

Definition AddRoundKey (s rk : state) : state := xor_state s rk.

(** *** Key expansion, for keys of [Nk] = 4, 6 or 8 words. *)

Definition zero_word : word := W x00 x00 x00 x00.

Fixpoint words_of_bytes (l : list byte) : list word :=
  match l with
  | a :: b :: c :: d :: rest => W a b c d :: words_of_bytes rest
  | _ => []
  end.

(** [expand_loop n Nk i rcon w]: [w] holds the words [0 .. i-1] of the
    schedule, [rcon] is the round constant for the next multiple of [Nk];
    [n] more words are appended. *)
Fixpoint expand_loop (n Nk i : nat) (rcon : byte) (w : list word) : list word :=
  match n with
  | O => w
  | S n' =>
      let temp := List.nth (i - 1) w zero_word in
      let '(temp', rcon') :=
        if i mod Nk =? 0 then
          (xor_word (SubWord (RotWord temp)) (W rcon x00 x00 x00), xtime rcon)
        else if (6 <? Nk) && (i mod Nk =? 4) then (SubWord temp, rcon)
        else (temp, rcon) in
      expand_loop n' Nk (S i) rcon'
                  (w ++ [xor_word (List.nth (i - Nk) w zero_word) temp'])
  end.

Fixpoint states_of_words (l : list word) : list state :=
  match l with
  | a :: b :: c :: d :: rest => St a b c d :: states_of_words rest
  | _ => []
  end.

(** The round keys of a key of 16, 24 or 32 octets: [Nr + 1] states with
    [Nr = Nk + 6]. *)
Definition KeyExpansion (key : list byte) : list state :=
  let Nk := length key / 4 in
  states_of_words (expand_loop (4 * (Nk + 7) - Nk) Nk Nk x01 (words_of_bytes key)).

(** *** Cipher and inverse cipher over a list of round keys. *)

Fixpoint rounds (rks : list state) (s : state) : state :=
  match rks with
  | [] => s
  | [rk] => AddRoundKey (ShiftRows (SubBytes s)) rk
  | rk :: rest =>
      rounds rest (AddRoundKey (MixColumns (ShiftRows (SubBytes s))) rk)
  end.

Definition Cipher (rks : list state) (s : state) : state :=
  match rks with
  | [] => s
  | rk0 :: rest => rounds rest (AddRoundKey s rk0)
  end.

Fixpoint inv_rounds (rks : list state) (s : state) : state :=
  match rks with
  | [] => s
  | [rk] => InvSubBytes (InvShiftRows (AddRoundKey s rk))
  | rk :: rest =>
      InvSubBytes (InvShiftRows (InvMixColumns
                                   (AddRoundKey (inv_rounds rest s) rk)))
  end.

Definition InvCipher (rks : list state) (s : state) : state :=
  match rks with
  | [] => s
  | rk0 :: rest => AddRoundKey (inv_rounds rest s) rk0
  end.

(** *** Blocks as octet strings. *)

Definition bytes_of_word (w : word) : list byte := [w0 w; w1 w; w2 w; w3 w].

Definition bytes_of_state (s : state) : list byte :=
  bytes_of_word (col0 s) ++ bytes_of_word (col1 s)
  ++ bytes_of_word (col2 s) ++ bytes_of_word (col3 s).

(** Cuts an octet string into 16-octet blocks; [None] when the length is
    not a multiple of 16. *)
Fixpoint blocks_of_bytes (l : list byte) : option (list state) :=
  match l with
  | [] => Some []
  | a0 :: a1 :: a2 :: a3 :: a4 :: a5 :: a6 :: a7
    :: a8 :: a9 :: a10 :: a11 :: a12 :: a13 :: a14 :: a15 :: rest =>
      match blocks_of_bytes rest with
      | Some bs =>
          Some (St (W a0 a1 a2 a3) (W a4 a5 a6 a7)
                   (W a8 a9 a10 a11) (W a12 a13 a14 a15) :: bs)
      | None => None
      end
  | _ => None
  end.

Definition bytes_of_blocks (bs : list state) : list byte :=
  List.concat (List.map bytes_of_state bs).

(** One block under a key, on octet strings. *)
Definition encrypt_block (key block : list byte) : list byte :=
  match blocks_of_bytes block with
  | Some [s] => bytes_of_state (Cipher (KeyExpansion key) s)
  | _ => []
  end.

End AES.

(* ===================================================================== *)
(** ** Octet strings in hexadecimal, for test vectors *)
(* ===================================================================== *)

Definition hex_digit (c : ascii) : N :=
  let n := N_of_ascii c in
  if (48 <=? n)%N && (n <=? 57)%N then (n - 48)%N
  else if (97 <=? n)%N && (n <=? 102)%N then (n - 87)%N
  else 0%N.

Fixpoint hex (s : string) : list byte :=
  match s with
  | String hi (String lo rest) =>
      of_N_trunc (16 * hex_digit hi + hex_digit lo) :: hex rest
  | _ => []
  end.

(* ===================================================================== *)
(** ** Python exceptions *)
(* ===================================================================== *)

(** The [ValueError]s that [Crypto.Cipher.AES], its CBC mode and
    [Crypto.Util.Padding] raise, by message. *)
Inductive value_error : Type :=
  | IncorrectKeyLength (n : nat) (* Incorrect AES key length (n bytes) *)
  | IncorrectIVLength            (* Incorrect IV length (it must be 16 bytes long) *)
  | DataNotBlockAligned          (* Data must be padded to 16 byte boundary in CBC mode *)
  | ZeroLengthInput              (* Zero-length input cannot be unpadded *)
  | InputNotPadded               (* Input data is not padded *)
  | PaddingIncorrect             (* Padding is incorrect. *)
  | PKCS7PaddingIncorrect.       (* PKCS#7 padding is incorrect. *)

Inductive exn : Type :=
  | ValueError (why : value_error)
  | FileNotFoundError (path : string)
  | SystemExit (code : nat).

Inductive result (A : Type) : Type :=
  | Ok (a : A)
  | Raise (e : exn).
Arguments Ok {A} a.
Arguments Raise {A} e.

(** The specification's names for the failures of [decrypt]. The artifact
    is malformed when the cipher object cannot be built from its first 16
    octets, when the rest is not a whole number of blocks, or when the rest
    is empty; the padding is invalid when [unpad] rejects the padding
    octets. *)
Definition MalformedArtifact (e : exn) : Prop :=
  e = ValueError IncorrectIVLength \/ e = ValueError DataNotBlockAligned
  \/ e = ValueError ZeroLengthInput.

Definition PaddingInvalid (e : exn) : Prop :=
  e = ValueError PaddingIncorrect \/ e = ValueError PKCS7PaddingIncorrect.

(* ===================================================================== *)
(** ** [Crypto.Util.Padding], style pkcs7 *)
(* ===================================================================== *)

Module Padding.

Definition pad (data_to_pad : list byte) (block_size : nat) : list byte :=
  let padding_len := block_size - length data_to_pad mod block_size in
  let padding := replicate padding_len (bchr padding_len) in
  data_to_pad ++ padding.

Definition unpad (padded_data : list byte) (block_size : nat)
  : result (list byte) :=
  let pdata_len := length padded_data in
  if pdata_len =? 0 then Raise (ValueError ZeroLengthInput)
  else if negb (pdata_len mod block_size =? 0) then
    Raise (ValueError InputNotPadded)
  else
    let padding_len := bord (List.last padded_data x00) in
    if (padding_len <? 1) || (Nat.min block_size pdata_len <? padding_len)
    then Raise (ValueError PaddingIncorrect)
    else if negb (bool_decide (drop (pdata_len - padding_len) padded_data
                               = replicate padding_len (bchr padding_len)))
    then Raise (ValueError PKCS7PaddingIncorrect)
    else Ok (take (pdata_len - padding_len) padded_data).

(** Well-formed PKCS#7 padding, stated on its own: the last octet has a
    value [n] between 1 and the block size, and each of the last [n]
    octets has the value [n]. *)
Definition well_formed (padded : list byte) (block_size : nat) : Prop :=
  exists body n,
    padded = body ++ replicate n (bchr n) /\ 1 <= n <= block_size.

End Padding.

(* ===================================================================== *)
(** ** [AES.new(key, AES.MODE_CBC, iv)]: the CBC cipher object *)
(* ===================================================================== *)

Module CBC.

(** What the object holds: the round keys and the chaining block. *)
Record CbcMode : Type :=
  { round_keys : list AES.state; chain : AES.state }.

Fixpoint encrypt_blocks (rks : list AES.state) (prev : AES.state)
         (blocks : list AES.state) : list AES.state :=
  match blocks with
  | [] => []
  | b :: rest =>
      let c := AES.Cipher rks (AES.xor_state b prev) in
      c :: encrypt_blocks rks c rest
  end.

Fixpoint decrypt_blocks (rks : list AES.state) (prev : AES.state)
         (blocks : list AES.state) : list AES.state :=
  match blocks with
  | [] => []
  | c :: rest =>
      AES.xor_state (AES.InvCipher rks c) prev :: decrypt_blocks rks c rest
  end.

Definition key_size_ok (n : nat) : bool :=
  (n =? 16) || (n =? 24) || (n =? 32).

(** The key is checked first, then the IV. *)
Definition new (key iv : list byte) : result CbcMode :=
  if negb (key_size_ok (length key)) then
    Raise (ValueError (IncorrectKeyLength (length key)))
  else
    match AES.blocks_of_bytes iv with
    | Some [s] => Ok {| round_keys := AES.KeyExpansion key; chain := s |}
    | _ => Raise (ValueError IncorrectIVLength)
    end.

(** The tool calls [encrypt] or [decrypt] once on a fresh object, so the
    updated chaining block is not returned. *)
Definition encrypt (c : CbcMode) (plaintext : list byte) : result (list byte) :=
  match AES.blocks_of_bytes plaintext with
  | Some bs =>
      Ok (AES.bytes_of_blocks (encrypt_blocks (round_keys c) (chain c) bs))
  | None => Raise (ValueError DataNotBlockAligned)
  end.

Definition decrypt (c : CbcMode) (ciphertext : list byte) : result (list byte) :=
  match AES.blocks_of_bytes ciphertext with
  | Some bs =>
      Ok (AES.bytes_of_blocks (decrypt_blocks (round_keys c) (chain c) bs))
  | None => Raise (ValueError DataNotBlockAligned)
  end.

End CBC.

(* ===================================================================== *)
(** ** The world the tool runs in *)
(* ===================================================================== *)

(** Files by path, and the octets the system's random generator will
    deliver next. Console output is not part of the model. Paths are plain
    names: directories, permissions and links are not modelled, so writing
    a file always succeeds. *)
Record world : Type :=
  { files : gmap string (list byte); entropy : nat -> byte }.

Definition M (A : Type) : Type := world -> result A * world.

Definition ret {A} (a : A) : M A := fun w => (Ok a, w).

Definition raise {A} (e : exn) : M A := fun w => (Raise e, w).

Definition bind {A B} (m : M A) (k : A -> M B) : M B :=
  fun w => match m w with
           | (Ok a, w') => k a w'
           | (Raise e, w') => (Raise e, w')
           end.

Definition lift {A} (r : result A) : M A := fun w => (r, w).

Notation "x <- m ;; k" := (bind m (fun x => k))
  (at level 100, m at next level, right associativity).
Notation "m ;;; k" := (bind m (fun _ => k))
  (at level 100, right associativity).

(** [Crypto.Random.get_random_bytes]. *)
Definition get_random_bytes (n : nat) : M (list byte) :=
  fun w => (Ok (List.map (entropy w) (List.seq 0 n)),
            {| files := files w; entropy := fun i => entropy w (n + i) |}).

(** [with open(path, 'rb') as f: f.read()]. *)
Definition read_binary (path : string) : M (list byte) :=
  fun w => match files w !! path with
           | Some data => (Ok data, w)
           | None => (Raise (FileNotFoundError path), w)
           end.

(** [open(path, 'wb')] (or ['w']): the file is created, or emptied. *)
Definition open_w (path : string) : M unit :=
  fun w => (Ok tt, {| files := <[path := []]> (files w); entropy := entropy w |}).

(** [f.write(data)] on a file opened for writing: the octets are appended. *)
Definition f_write (path : string) (data : list byte) : M unit :=
  fun w => (Ok tt,
            {| files := <[path := default [] (files w !! path) ++ data]> (files w);
               entropy := entropy w |}).

Definition os_path_exists (path : string) : M bool :=
  fun w => (Ok (bool_decide (is_Some (files w !! path))), w).

(** [sys.exit(code)]. *)
Definition sys_exit {A} (code : nat) : M A := raise (SystemExit code).

(* ===================================================================== *)
(** ** String helpers of the command line driver *)
(* ===================================================================== *)

Definition newline : string := String (Ascii.ascii_of_nat 10) EmptyString.

Fixpoint starts_with (p s : string) : bool :=
  match p, s with
  | EmptyString, _ => true
  | String a p', String b s' => Ascii.eqb a b && starts_with p' s'
  | String _ _, EmptyString => false
  end.

Fixpoint ends_with_slash (s : string) : bool :=
  match s with
  | EmptyString => false
  | String c EmptyString => Ascii.eqb c "/"%char
  | String _ s' => ends_with_slash s'
  end.

(** [os.path.join(a, b)] of [posixpath]. *)
Definition os_path_join (a b : string) : string :=
  if starts_with "/" b then b
  else if String.eqb a EmptyString || ends_with_slash a then (a ++ b)%string
  else (a ++ "/" ++ b)%string.

(** [s.replace(old, new)] for a non-empty [old]: occurrences are replaced
    from left to right, without overlap. [skip] counts the characters of an
    occurrence still to be dropped. *)
Fixpoint replace_from (skip : nat) (old new s : string) : string :=
  match s with
  | EmptyString => EmptyString
  | String c s' =>
      match skip with
      | S k => replace_from k old new s'
      | O =>
          if starts_with old s
          then (new ++ replace_from (String.length old - 1) old new s')%string
          else String c (replace_from 0 old new s')
      end
  end.

Definition str_replace (s old new : string) : string := replace_from 0 old new s.

(** Truth value of an optional command line string: [None] and the empty
    string are false. *)
Definition truthy (o : option string) : bool :=
  match o with
  | Some s => negb (String.eqb s EmptyString)
  | None => false
  end.

(* ===================================================================== *)
(** ** The tool *)
(* ===================================================================== *)

(** The key compiled into the tool as it ships (lines 37-42). *)
Definition AES_KEY : list byte := replicate 32 x00.

Definition BLOCK_SIZE : nat := 16.

(** The command line after [argparse]. *)
Record args : Type :=
  { input : option string;
    version : option string;
    output_dir : string;
    decrypt : bool;
    output : option string;
    generate_key : bool }.

(** The text written to [latest.txt] (line 162). *)
Definition latest_txt (version : string) : string :=
  (version ++ ",PUT_FIRMWARE_FILE_ID_HERE" ++ newline)%string.

(** The functions of the tool read the module-level [AES_KEY], which the
    operator is told to replace by a generated key. They are written here
    over the key in place, [key]; the tool as it ships is the instance
    [key := AES_KEY]. The [print] calls are left out. *)
Section Tool.

Variable key : list byte.

(** Lines 47-69. *)
Definition encrypt_firmware (input_path output_path : string) : M unit :=
  plaintext <- read_binary input_path ;;
  iv <- get_random_bytes BLOCK_SIZE ;;
  cipher <- lift (CBC.new key iv) ;;
  let padded_data := Padding.pad plaintext BLOCK_SIZE in
  ciphertext <- lift (CBC.encrypt cipher padded_data) ;;
  open_w output_path ;;;
  f_write output_path iv ;;;
  f_write output_path ciphertext.

(** Lines 72-90. *)
Definition decrypt_firmware (input_path output_path : string) : M unit :=
  data <- read_binary input_path ;;
  let iv := take BLOCK_SIZE data in
  let ciphertext := drop BLOCK_SIZE data in
  cipher <- lift (CBC.new key iv) ;;
  padded_plaintext <- lift (CBC.decrypt cipher ciphertext) ;;
  plaintext <- lift (Padding.unpad padded_plaintext BLOCK_SIZE) ;;
  open_w output_path ;;;
  f_write output_path plaintext.

(** Lines 93-111: draws 32 octets and prints them. *)
Definition generate_new_key : M unit :=
  new_key <- get_random_bytes 32 ;;
  ret tt.

(** Lines 114-188, from the parsed command line on. [os.makedirs] has
    nothing to do in a world without directories. In decrypt mode the
    output name defaults to the input name with [.enc] replaced; an input
    name without [.enc] is its own default output name. *)
Definition main (a : args) : M unit :=
  if generate_key a then generate_new_key
  else if decrypt a then
    if negb (truthy (input a)) then sys_exit 1
    else
      let inp := default EmptyString (input a) in
      let out := if truthy (output a) then default EmptyString (output a)
                 else str_replace inp ".enc" "_decrypted.bin" in
      decrypt_firmware inp out
  else if negb (truthy (input a)) then sys_exit 1
  else if negb (truthy (version a)) then sys_exit 1
  else
    let inp := default EmptyString (input a) in
    let ver := default EmptyString (version a) in
    present <- os_path_exists inp ;;
    if negb present then sys_exit 1
    else
      let output_filename := (ver ++ ".enc")%string in
      let output_path := os_path_join (output_dir a) output_filename in
      encrypt_firmware inp output_path ;;;
      let latest_path := os_path_join (output_dir a) "latest.txt" in
      open_w latest_path ;;;
      f_write latest_path (String.list_byte_of_string (latest_txt ver)).

End Tool.

(* ===================================================================== *)
(** ** The envelope as a function of key, IV and contents *)
(* ===================================================================== *)

(** The next [n] octets of the random generator, and the world once they
    have been drawn. *)
Definition drawn (n : nat) (w : world) : list byte :=
  List.map (entropy w) (List.seq 0 n).

Definition advance (n : nat) (w : world) : world :=
  {| files := files w; entropy := fun i => entropy w (n + i) |}.

Definition with_file (path : string) (data : list byte) (w : world) : world :=
  {| files := <[path := data]> (files w); entropy := entropy w |}.

(** What [encrypt_firmware] writes for contents [plaintext] when the
    generator delivers [iv] (lines 59-65). *)
Definition seal (key iv plaintext : list byte) : result (list byte) :=
  match CBC.new key iv with
  | Ok cipher =>
      match CBC.encrypt cipher (Padding.pad plaintext BLOCK_SIZE) with
      | Ok ciphertext => Ok (iv ++ ciphertext)
      | Raise e => Raise e
      end
  | Raise e => Raise e
  end.

(** What [decrypt_firmware] writes for an input file [data] (lines 79-84). *)
Definition unseal (key data : list byte) : result (list byte) :=
  match CBC.new key (take BLOCK_SIZE data) with
  | Ok cipher =>
      match CBC.decrypt cipher (drop BLOCK_SIZE data) with
      | Ok padded_plaintext => Padding.unpad padded_plaintext BLOCK_SIZE
      | Raise e => Raise e
      end
  | Raise e => Raise e
  end.

(* ===================================================================== *)
(** ** Sample data for the instances of the theorems *)
(* ===================================================================== *)

Module Sample.

Definition firmware : list byte := [x01; x02; x03].

(** A world with a firmware image, an empty file and a fixed supply of "random"
    octets 0, 7, 14, ... *)
Definition w : world :=
  {| files := {[ "fw.bin"%string := firmware; "empty.bin"%string := [] ]};
     entropy := fun i => bchr (7 * i) |}.

(** The same image under another name, next to other files. *)
Definition w' : world :=
  {| files := {[ "build/app.bin"%string := firmware;
                 "notes.txt"%string := [x68; x69] ]};
     entropy := fun i => if i <? 16 then bchr (7 * i) else xff |}.

Definition key : list byte := List.map bchr (List.seq 0 32).

(** The artifact of [firmware] under [key] with the first 16 octets of
    the supply of [w] as IV, and a world that holds it. *)
Definition artifact : list byte :=
  Eval vm_compute in
    match seal key (drawn 16 w) firmware with
    | Ok a => a
    | Raise _ => []
    end.

Definition w_enc : world :=
  {| files := {[ "fw.enc"%string := artifact ]}; entropy := entropy w |}.


End Sample.


(* ===================================================================== *)
(** ** Enumerating octet strings of a given length *)
(* ===================================================================== *)


(* ===================================================================== *)
(** ** Sample data: an artifact of four blocks, and two altered copies *)
(* ===================================================================== *)

Module Tampered.

(** Forty octets 100, 101, ... *)
Definition firmware : list byte := List.map bchr (List.seq 100 40).

Definition artifact : list byte :=
  Eval vm_compute in
    match seal Sample.key (drawn 16 Sample.w) firmware with
    | Ok a => a
    | Raise _ => []
    end.

Definition iv : list byte := take 16 artifact.
Definition block1 : list byte := take 16 (drop 16 artifact).
Definition blocks23 : list byte := drop 32 artifact.

(** The top bit of the first octet. *)
Definition delta : list byte := x80 :: replicate 15 x00.

Definition other_block : list byte := replicate 16 xaa.

(** The artifact, a copy with one bit of the IV flipped, and a copy with
    the first ciphertext block replaced. *)
Definition w : world :=
  {| files := {[ "fw.enc"%string := artifact;
                 "iv.enc"%string := xor_bytes iv delta ++ block1 ++ blocks23;
                 "c1.enc"%string := iv ++ other_block ++ blocks23 ]};
     entropy := fun _ => x00 |}.

End Tampered.

(* ===================================================================== *)
(** ** Looking into strings *)
(* ===================================================================== *)

(** Whether [old] occurs in [s]. *)
Fixpoint str_contains (old s : string) : bool :=
  match s with
  | EmptyString => starts_with old s
  | String _ s' => starts_with old s || str_contains old s'
  end.

(** The number of occurrences of a character. *)
Fixpoint count_char (c : ascii) (s : string) : nat :=
  match s with
  | EmptyString => 0
  | String d s' => (if Ascii.eqb c d then 1 else 0) + count_char c s'
  end.


(* ===================================================================== *)
(** ** What [generate_new_key] prints (lines 96-111) *)
(* ===================================================================== *)

(** A hexadecimal digit in upper case. *)
Definition hex_upper_digit (n : N) : ascii :=
  if (n <? 10)%N then ascii_of_N (48 + n) else ascii_of_N (55 + n).

(** The format [02X]. *)
Definition format_02X (b : byte) : string :=
  String (hex_upper_digit (Byte.to_N b / 16))
         (String (hex_upper_digit (Byte.to_N b mod 16)) EmptyString).

(** ["0x{b:02X}"]. *)
Definition format_octet (b : byte) : string := ("0x" ++ format_02X b)%string.

(** [sep.join(l)]. *)
Fixpoint str_join (sep : string) (l : list string) : string :=
  match l with
  | [] => EmptyString
  | [x] => x
  | x :: rest => (x ++ sep ++ str_join sep rest)%string
  end.

(** [", ".join(f"0x{b:02X}" for b in new_key[i:i+8])]. *)
Definition key_line (new_key : list byte) (i : nat) : string :=
  str_join ", " (List.map format_octet (take 8 (drop i new_key))).

(** [range(0, 32, 8)]. *)
Definition key_line_starts : list nat := [0; 8; 16; 24].

(** The Python literal (lines 99-103). *)
Definition python_key_lines (new_key : list byte) : list string :=
  ["AES_KEY = bytes(["%string]
  ++ List.map (fun i => ("    " ++ key_line new_key i ++ ",")%string)
              key_line_starts
  ++ ["])"%string].

(** The C++ initializer (lines 106-111): no comma after the last line. *)
Definition cpp_key_lines (new_key : list byte) : list string :=
  ["static const uint8_t AES_KEY[32] = {"%string]
  ++ List.map (fun i =>
                 let comma := if i <? 24 then ","%string else EmptyString in
                 ("    " ++ key_line new_key i ++ comma)%string)
              key_line_starts
  ++ ["};"%string].

(** Everything [generate_new_key] prints for the key it has drawn, line by
    line. *)
Definition generate_new_key_output (new_key : list byte) : list string :=
  ["Generated new AES-256 key:"%string; EmptyString;
   "For Python (encrypt_firmware.py):"%string]
  ++ python_key_lines new_key
  ++ [EmptyString; "For C++ (recovery_main.cpp):"%string]
  ++ cpp_key_lines new_key.

(** Reading an octet back from its two hexadecimal digits. *)
Definition hex_upper_value (c : ascii) : N :=
  let n := N_of_ascii c in
  if (n <? 58)%N then (n - 48)%N else (n - 55)%N.

Definition parse_02X (s : string) : byte :=
  match s with
  | String hi (String lo _) =>
      of_N_trunc (16 * hex_upper_value hi + hex_upper_value lo)
  | _ => x00
  end.

(* ===================================================================== *)
(** ** More sample data: command lines and a second random supply *)
(* ===================================================================== *)

Module Cases.

(** Encrypt mode on a file that does not exist. *)
Definition absent_input : args :=
  {| input := Some "absent.bin"%string;
     version := Some "1.0.0"%string;
     output_dir := "ota_releases";
     decrypt := false;
     output := None;
     generate_key := false |}.

(** Decrypt mode without [--output], on a name ending in [.enc] and on a
    name without [.enc]. *)
Definition decrypt_enc : args :=
  {| input := Some "fw.enc"%string;
     version := None;
     output_dir := "ota_releases";
     decrypt := true;
     output := None;
     generate_key := false |}.

Definition decrypt_img : args :=
  {| input := Some "fw.img"%string;
     version := None;
     output_dir := "ota_releases";
     decrypt := true;
     output := None;
     generate_key := false |}.

(** The files of [Sample.w] with another supply of random octets. *)
Definition w_other : world :=
  {| files := files Sample.w; entropy := fun i => bchr (3 * i + 1) |}.

(** The artifact of [Sample.firmware] under two names. *)
Definition w_img : world :=
  {| files := {[ "fw.img"%string := Sample.artifact;
                 "fw.enc"%string := Sample.artifact ]};
     entropy := fun _ => x00 |}.

End Cases.

(* ===================================================================== *)
(** * Properties *)
(* ===================================================================== *)

(** ** The model against published test vectors *)

(** FIPS 197, appendix C: one block under a key of 16, 24 and 32 octets. *)
Example fips197_aes128 :
  AES.encrypt_block (hex "000102030405060708090a0b0c0d0e0f")
                    (hex "00112233445566778899aabbccddeeff")
  = hex "69c4e0d86a7b0430d8cdb78070b4c55a".
Proof. vm_compute. reflexivity. Qed.

Example fips197_aes192 :
  AES.encrypt_block (hex "000102030405060708090a0b0c0d0e0f1011121314151617")
                    (hex "00112233445566778899aabbccddeeff")
  = hex "dda97ca4864cdfe06eaf70a0ec0d7191".
Proof. vm_compute. reflexivity. Qed.

Example fips197_aes256 :
  AES.encrypt_block
    (hex "000102030405060708090a0b0c0d0e0f101112131415161718191a1b1c1d1e1f")
    (hex "00112233445566778899aabbccddeeff")
  = hex "8ea2b7ca516745bfeafc49904b496089".
Proof. vm_compute. reflexivity. Qed.

(** NIST SP 800-38A, F.2.5 and F.2.6: CBC with a key of 32 octets. *)
Example sp800_38a_cbc_aes256 :
  exists c,
    CBC.new (hex "603deb1015ca71be2b73aef0857d77811f352c073b6108d72d9810a30914dff4")
            (hex "000102030405060708090a0b0c0d0e0f") = Ok c
    /\ CBC.encrypt c
         (hex ("6bc1bee22e409f96e93d7e117393172aae2d8a571e03ac9c9eb76fac45af8e51"
               ++ "30c81c46a35ce411e5fbc1191a0a52eff69f2445df4f9b17ad2b417be66c3710"))
       = Ok (hex ("f58c4c04d6e5f1ba779eabfb5f7bfbd69cfc4e967edb808d679f777bc6702c7d"
                  ++ "39f23369a9d9bacfa530e26304231461b2eb05e2c39be9fcda6c19078c6a9d1b"))
    /\ CBC.decrypt c
         (hex ("f58c4c04d6e5f1ba779eabfb5f7bfbd69cfc4e967edb808d679f777bc6702c7d"
               ++ "39f23369a9d9bacfa530e26304231461b2eb05e2c39be9fcda6c19078c6a9d1b"))
       = Ok (hex ("6bc1bee22e409f96e93d7e117393172aae2d8a571e03ac9c9eb76fac45af8e51"
                  ++ "30c81c46a35ce411e5fbc1191a0a52eff69f2445df4f9b17ad2b417be66c3710")).
Proof. eexists. split; [vm_compute; reflexivity|]. split; vm_compute; reflexivity. Qed.

(** PKCS#7: two octets are padded with fourteen octets of value 14, a
    whole block with a block of value 16. *)
Example pad_two_octets :
  Padding.pad (hex "0102") 16 = hex "01020e0e0e0e0e0e0e0e0e0e0e0e0e0e".
Proof. vm_compute. reflexivity. Qed.

Example pad_empty :
  Padding.pad [] 16 = hex "10101010101010101010101010101010".
Proof. vm_compute. reflexivity. Qed.

Example unpad_bad_padding :
  Padding.unpad (hex "01020e0e0e0e0e0e0e0e0e0e0e0e0e0f") 16
  = Raise (ValueError PKCS7PaddingIncorrect).
Proof. vm_compute. reflexivity. Qed.

Example str_replace_enc :
  str_replace "fw.enc" ".enc" "_decrypted.bin" = "fw_decrypted.bin"%string
  /\ str_replace "fw.bin" ".enc" "_decrypted.bin" = "fw.bin"%string.
Proof. split; reflexivity. Qed.

Example os_path_join_dir :
  os_path_join "ota_releases" "1.0.0.enc" = "ota_releases/1.0.0.enc"%string.
Proof. reflexivity. Qed.

(** ** Exhaustive checking over the octets *)

Lemma bchr_bord (b : byte) : bchr (bord b) = b.
Proof. unfold bchr, bord. now rewrite Byte.of_to_nat. Qed.

Lemma bord_lt_256 (b : byte) : bord b < 256.
Proof. unfold bord. pose proof (Byte.to_nat_bounded b). lia. Qed.

Lemma bord_bchr (n : nat) : n < 256 -> bord (bchr n) = n.
Proof.
  intros Hn. unfold bord, bchr.
  destruct (Byte.of_nat n) as [b|] eqn:E.
  - now apply Byte.to_of_nat.
  - apply Byte.of_nat_None_iff in E. lia.
Qed.

Lemma in_all_bytes (b : byte) : List.In b all_bytes.
Proof.
  unfold all_bytes. rewrite <- (bchr_bord b).
  apply List.in_map, List.in_seq. pose proof (bord_lt_256 b). lia.
Qed.

Lemma for_all_bytes_spec (P : byte -> bool) :
  for_all_bytes P = true -> forall b, P b = true.
Proof.
  unfold for_all_bytes. rewrite List.forallb_forall.
  intros H b. apply H, in_all_bytes.
Qed.

Lemma for_all_bytes2_spec (P : byte -> byte -> bool) :
  for_all_bytes2 P = true -> forall a b, P a b = true.
Proof.
  intros H a b. unfold for_all_bytes2 in H.
  apply (for_all_bytes_spec (P a)). now apply (for_all_bytes_spec _ H).
Qed.

Ltac by_bytes1 :=
  let b := fresh "b" in
  intros b; apply Byte.byte_dec_bl; revert b;
  apply for_all_bytes_spec; vm_compute; reflexivity.

Ltac by_bytes2 :=
  let a := fresh "a" in let b := fresh "b" in
  intros a b; apply Byte.byte_dec_bl; revert a b;
  apply for_all_bytes2_spec; vm_compute; reflexivity.

Lemma bxor_zero_r : forall a, bxor a x00 = a.
Proof. by_bytes1. Qed.

Lemma bxor_zero_l : forall a, bxor x00 a = a.
Proof. by_bytes1. Qed.

Lemma to_N_bxor (a b : byte) :
  Byte.to_N (bxor a b) = N.lxor (Byte.to_N a) (Byte.to_N b).
Proof.
  apply N.eqb_eq. revert a b.
  apply (for_all_bytes2_spec
           (fun a b => N.eqb (Byte.to_N (bxor a b))
                             (N.lxor (Byte.to_N a) (Byte.to_N b)))).
  vm_compute. reflexivity.
Qed.

Lemma to_N_inj (a b : byte) : Byte.to_N a = Byte.to_N b -> a = b.
Proof.
  intros H. apply (f_equal Byte.of_N) in H.
  rewrite !Byte.of_to_N in H. congruence.
Qed.

Lemma bxor_assoc (a b c : byte) : bxor (bxor a b) c = bxor a (bxor b c).
Proof. apply to_N_inj. rewrite !to_N_bxor. apply N.lxor_assoc. Qed.

Lemma bxor_comm (a b : byte) : bxor a b = bxor b a.
Proof. apply to_N_inj. rewrite !to_N_bxor. apply N.lxor_comm. Qed.

Lemma bxor_cancel_r (a k : byte) : bxor (bxor a k) k = a.
Proof.
  apply to_N_inj. rewrite !to_N_bxor.
  now rewrite N.lxor_assoc, N.lxor_nilpotent, N.lxor_0_r.
Qed.

(** The interchange law of a commutative monoid. *)
Lemma bxor_interchange (p q r s : byte) :
  bxor (bxor p q) (bxor r s) = bxor (bxor p r) (bxor q s).
Proof.
  rewrite !bxor_assoc. f_equal.
  rewrite <- !bxor_assoc. f_equal. apply bxor_comm.
Qed.


(** ** The AES round transformations are bijections *)

Module AESFacts.
Import AES.

(** Multiplication by the constants of the two mixing matrices, in terms
    of [xtime]. *)
Lemma xtime_add : forall x y, xtime (bxor x y) = bxor (xtime x) (xtime y).
Proof. by_bytes2. Qed.

Lemma gmul02_xtime : forall x, gmul x02 x = xtime x.
Proof. by_bytes1. Qed.
Lemma gmul03_xtime : forall x, gmul x03 x = bxor (xtime x) x.
Proof. by_bytes1. Qed.
Lemma gmul09_xtime : forall x, gmul x09 x = bxor (xtime (xtime (xtime x))) x.
Proof. by_bytes1. Qed.
Lemma gmul0b_xtime : forall x,
  gmul x0b x = bxor (bxor (xtime (xtime (xtime x))) (xtime x)) x.
Proof. by_bytes1. Qed.
Lemma gmul0d_xtime : forall x,
  gmul x0d x = bxor (bxor (xtime (xtime (xtime x))) (xtime (xtime x))) x.
Proof. by_bytes1. Qed.
Lemma gmul0e_xtime : forall x,
  gmul x0e x = bxor (bxor (xtime (xtime (xtime x))) (xtime (xtime x))) (xtime x).
Proof. by_bytes1. Qed.

Lemma xor3_add (a b c a' b' c' : byte) :
  bxor (bxor (bxor a b) c) (bxor (bxor a' b') c')
  = bxor (bxor (bxor a a') (bxor b b')) (bxor c c').
Proof.
  rewrite (bxor_interchange (bxor a b) c).
  now rewrite (bxor_interchange a b).
Qed.

Lemma gmul02_add (x y : byte) : gmul x02 (bxor x y) = bxor (gmul x02 x) (gmul x02 y).
Proof. rewrite !gmul02_xtime. apply xtime_add. Qed.

Lemma gmul03_add (x y : byte) : gmul x03 (bxor x y) = bxor (gmul x03 x) (gmul x03 y).
Proof.
  rewrite !gmul03_xtime, xtime_add. symmetry. apply bxor_interchange.
Qed.

Lemma gmul09_add (x y : byte) : gmul x09 (bxor x y) = bxor (gmul x09 x) (gmul x09 y).
Proof.
  rewrite !gmul09_xtime, !xtime_add. symmetry. apply bxor_interchange.
Qed.

Lemma gmul0b_add (x y : byte) : gmul x0b (bxor x y) = bxor (gmul x0b x) (gmul x0b y).
Proof. rewrite !gmul0b_xtime, !xtime_add. symmetry. apply xor3_add. Qed.

Lemma gmul0d_add (x y : byte) : gmul x0d (bxor x y) = bxor (gmul x0d x) (gmul x0d y).
Proof. rewrite !gmul0d_xtime, !xtime_add. symmetry. apply xor3_add. Qed.

Lemma gmul0e_add (x y : byte) : gmul x0e (bxor x y) = bxor (gmul x0e x) (gmul x0e y).
Proof. rewrite !gmul0e_xtime, !xtime_add. symmetry. apply xor3_add. Qed.

Lemma xor4_add (a b c d a' b' c' d' : byte) :
  bxor (xor4 a b c d) (xor4 a' b' c' d')
  = xor4 (bxor a a') (bxor b b') (bxor c c') (bxor d d').
Proof.
  unfold xor4.
  rewrite (bxor_interchange (bxor (bxor a b) c) d).
  rewrite (bxor_interchange (bxor a b) c).
  now rewrite (bxor_interchange a b).
Qed.

Lemma MixColumn_add (u v : word) :
  MixColumn (xor_word u v) = xor_word (MixColumn u) (MixColumn v).
Proof.
  destruct u, v. cbv [MixColumn xor_word w0 w1 w2 w3].
  rewrite !xor4_add, !gmul02_add, !gmul03_add. reflexivity.
Qed.

Lemma InvMixColumn_add (u v : word) :
  InvMixColumn (xor_word u v) = xor_word (InvMixColumn u) (InvMixColumn v).
Proof.
  destruct u, v. cbv [InvMixColumn xor_word w0 w1 w2 w3].
  rewrite !xor4_add, !gmul09_add, !gmul0b_add, !gmul0d_add, !gmul0e_add.
  reflexivity.
Qed.

(** Every column is the sum of four columns with one non-zero octet. *)
Lemma word_decomp (a b c d : byte) :
  W a b c d
  = xor_word (xor_word (xor_word (W a x00 x00 x00) (W x00 b x00 x00))
                       (W x00 x00 c x00)) (W x00 x00 x00 d).
Proof.
  cbv [xor_word w0 w1 w2 w3].
  now rewrite !bxor_zero_r, !bxor_zero_l.
Qed.

(** Equality of two columns computed from one octet, octet by octet. *)
Lemma word_eq_by_bytes (f g : byte -> word) :
  (forall a, w0 (f a) = w0 (g a)) -> (forall a, w1 (f a) = w1 (g a)) ->
  (forall a, w2 (f a) = w2 (g a)) -> (forall a, w3 (f a) = w3 (g a)) ->
  forall a, f a = g a.
Proof.
  intros H0 H1 H2 H3 a.
  specialize (H0 a); specialize (H1 a); specialize (H2 a); specialize (H3 a).
  destruct (f a), (g a); simpl in *; congruence.
Qed.

Ltac on_basis := apply word_eq_by_bytes; by_bytes1.

Lemma InvMix_Mix_e0 : forall a,
  InvMixColumn (MixColumn (W a x00 x00 x00)) = W a x00 x00 x00.
Proof. on_basis. Qed.
Lemma InvMix_Mix_e1 : forall a,
  InvMixColumn (MixColumn (W x00 a x00 x00)) = W x00 a x00 x00.
Proof. on_basis. Qed.
Lemma InvMix_Mix_e2 : forall a,
  InvMixColumn (MixColumn (W x00 x00 a x00)) = W x00 x00 a x00.
Proof. on_basis. Qed.
Lemma InvMix_Mix_e3 : forall a,
  InvMixColumn (MixColumn (W x00 x00 x00 a)) = W x00 x00 x00 a.
Proof. on_basis. Qed.


Lemma InvMixColumn_MixColumn (w : word) : InvMixColumn (MixColumn w) = w.
Proof.
  destruct w as [a b c d]. rewrite (word_decomp a b c d).
  rewrite !MixColumn_add, !InvMixColumn_add.
  now rewrite InvMix_Mix_e0, InvMix_Mix_e1, InvMix_Mix_e2, InvMix_Mix_e3.
Qed.


Lemma InvSubByte_SubByte : forall b, InvSubByte (SubByte b) = b.
Proof. by_bytes1. Qed.


Lemma xor_word_cancel (u k : word) : xor_word (xor_word u k) k = u.
Proof.
  destruct u, k. cbv [xor_word w0 w1 w2 w3]. now rewrite !bxor_cancel_r.
Qed.

Lemma xor_state_cancel (s k : state) : xor_state (xor_state s k) k = s.
Proof.
  destruct s, k. cbv [xor_state col0 col1 col2 col3].
  now rewrite !xor_word_cancel.
Qed.

Lemma InvMixColumns_MixColumns (s : state) : InvMixColumns (MixColumns s) = s.
Proof.
  destruct s. cbv [InvMixColumns MixColumns map_state col0 col1 col2 col3].
  now rewrite !InvMixColumn_MixColumn.
Qed.


Lemma InvSubBytes_SubBytes (s : state) : InvSubBytes (SubBytes s) = s.
Proof.
  destruct s as [[] [] [] []].
  cbv [InvSubBytes SubBytes map_state map_word col0 col1 col2 col3 w0 w1 w2 w3].
  now rewrite !InvSubByte_SubByte.
Qed.


Lemma InvShiftRows_ShiftRows (s : state) : InvShiftRows (ShiftRows s) = s.
Proof. now destruct s as [[] [] [] []]. Qed.


Lemma rounds_cons2 (rk rk' : state) (rest : list state) (s : state) :
  rounds (rk :: rk' :: rest) s
  = rounds (rk' :: rest) (AddRoundKey (MixColumns (ShiftRows (SubBytes s))) rk).
Proof. reflexivity. Qed.

Lemma inv_rounds_cons2 (rk rk' : state) (rest : list state) (s : state) :
  inv_rounds (rk :: rk' :: rest) s
  = InvSubBytes (InvShiftRows (InvMixColumns
                   (AddRoundKey (inv_rounds (rk' :: rest) s) rk))).
Proof. reflexivity. Qed.

Lemma inv_rounds_rounds (rks : list state) :
  forall s, inv_rounds rks (rounds rks s) = s.
Proof.
  induction rks as [|rk rest IH]; intros s; [reflexivity|].
  destruct rest as [|rk' rest'].
  - cbn [rounds inv_rounds]. unfold AddRoundKey.
    now rewrite xor_state_cancel, InvShiftRows_ShiftRows, InvSubBytes_SubBytes.
  - rewrite rounds_cons2, inv_rounds_cons2, IH. unfold AddRoundKey.
    now rewrite xor_state_cancel, InvMixColumns_MixColumns,
      InvShiftRows_ShiftRows, InvSubBytes_SubBytes.
Qed.


(** The inverse cipher undoes the cipher, for every list of round keys. *)
Lemma InvCipher_Cipher (rks : list state) (s : state) :
  InvCipher rks (Cipher rks s) = s.
Proof.
  destruct rks as [|rk0 rest]; [reflexivity|].
  unfold InvCipher, Cipher, AddRoundKey.
  now rewrite inv_rounds_rounds, xor_state_cancel.
Qed.


End AESFacts.

(** ** Octet strings and blocks *)

Module BlockFacts.
Import AES.

Lemma length_bytes_of_state (s : state) : length (bytes_of_state s) = 16.
Proof. reflexivity. Qed.

Lemma length_bytes_of_blocks (bs : list state) :
  length (bytes_of_blocks bs) = 16 * length bs.
Proof.
  unfold bytes_of_blocks.
  induction bs as [|b bs IH]; [reflexivity|].
  cbn [List.map List.concat]. rewrite length_app, IH, length_bytes_of_state.
  cbn [length]. lia.
Qed.

Lemma blocks_of_bytes_app (s : state) (l : list byte) :
  blocks_of_bytes (bytes_of_state s ++ l)
  = match blocks_of_bytes l with Some bs => Some (s :: bs) | None => None end.
Proof. destruct s as [[] [] [] []]. reflexivity. Qed.

Lemma blocks_of_bytes_of_blocks (bs : list state) :
  blocks_of_bytes (bytes_of_blocks bs) = Some bs.
Proof.
  unfold bytes_of_blocks.
  induction bs as [|b bs IH]; [reflexivity|].
  cbn [List.map List.concat]. now rewrite blocks_of_bytes_app, IH.
Qed.

(** A non-empty string shorter than a block is not a sequence of blocks. *)
Lemma blocks_of_bytes_short (l : list byte) :
  0 < length l < 16 -> blocks_of_bytes l = None.
Proof.
  intros H.
  do 16 (destruct l as [|? l]; [cbn in H; try lia; reflexivity|]).
  cbn in H. lia.
Qed.

(** A string of at least 16 octets starts with a block. *)
Lemma split_first_block (l : list byte) :
  16 <= length l ->
  exists s, l = bytes_of_state s ++ drop 16 l.
Proof.
  intros H.
  do 16 (destruct l as [|? l]; [cbn in H; lia|]).
  eexists (St (W _ _ _ _) (W _ _ _ _) (W _ _ _ _) (W _ _ _ _)).
  reflexivity.
Qed.

(** Induction over an octet string, one block at a time. *)
Lemma blockwise_ind (P : list byte -> Prop) :
  P [] ->
  (forall l, 0 < length l < 16 -> P l) ->
  (forall s rest, P rest -> P (bytes_of_state s ++ rest)) ->
  forall l, P l.
Proof.
  intros Hnil Hshort Hstep l.
  remember (length l) as n eqn:Hn. revert l Hn.
  induction n as [n IH] using lt_wf_ind. intros l Hn.
  destruct (Nat.eq_dec n 0) as [->|Hpos].
  - destruct l; [exact Hnil | discriminate].
  - destruct (Nat.lt_ge_cases n 16) as [Hlt|Hge].
    + apply Hshort. lia.
    + destruct (split_first_block l) as [s Hs]; [lia|].
      rewrite Hs. apply Hstep.
      apply (IH (length (drop 16 l))); [rewrite length_drop; lia | reflexivity].
Qed.

Lemma blocks_of_bytes_Some_iff (l : list byte) :
  is_Some (blocks_of_bytes l) <-> length l mod 16 = 0.
Proof.
  induction l as [| l Hl | s rest IH] using blockwise_ind.
  - split; [reflexivity | intros _; now exists []].
  - rewrite blocks_of_bytes_short by assumption.
    rewrite Nat.mod_small by lia.
    split; [intros [? ?]; discriminate | lia].
  - rewrite blocks_of_bytes_app, length_app, length_bytes_of_state.
    replace ((16 + length rest) mod 16) with (length rest mod 16)
      by (rewrite <- (Nat.Div0.mod_add (length rest) 1 16); f_equal; lia).
    rewrite <- IH.
    destruct (blocks_of_bytes rest); split; intros [? ?]; try discriminate; eauto.
Qed.

Lemma blocks_of_bytes_None_iff (l : list byte) :
  blocks_of_bytes l = None <-> length l mod 16 <> 0.
Proof.
  rewrite <- blocks_of_bytes_Some_iff.
  destruct (blocks_of_bytes l); split; intros H; try congruence.
  - exfalso. apply H. eauto.
  - destruct 1. discriminate.
Qed.

Lemma bytes_of_blocks_of_bytes (l : list byte) (bs : list state) :
  blocks_of_bytes l = Some bs -> bytes_of_blocks bs = l.
Proof.
  revert bs.
  induction l as [| l Hl | s rest IH] using blockwise_ind; intros bs.
  - intros [= <-]. reflexivity.
  - rewrite blocks_of_bytes_short by assumption. discriminate.
  - rewrite blocks_of_bytes_app.
    destruct (blocks_of_bytes rest) as [bs'|]; [|discriminate].
    intros [= <-]. unfold bytes_of_blocks. cbn [List.map List.concat].
    f_equal. now apply IH.
Qed.

(** Exactly the strings of 16 octets are single blocks. *)
Lemma blocks_of_bytes_single (l : list byte) :
  length l = 16 -> exists s, blocks_of_bytes l = Some [s] /\ l = bytes_of_state s.
Proof.
  intros H. destruct (split_first_block l) as [s Hs]; [lia|].
  assert (drop 16 l = []) as Hd
      by (apply length_zero_iff_nil; rewrite length_drop; lia).
  rewrite Hd, app_nil_r in Hs. exists s. split; [|exact Hs].
  rewrite Hs. rewrite <- (app_nil_r (bytes_of_state s)).
  now rewrite blocks_of_bytes_app.
Qed.

Lemma blocks_of_bytes_not_single (l : list byte) :
  length l <> 16 ->
  match blocks_of_bytes l with Some [_] => False | _ => True end.
Proof.
  intros H. destruct (blocks_of_bytes l) as [[|s [|s' bs]]|] eqn:E; try exact I.
  apply bytes_of_blocks_of_bytes in E. subst l.
  rewrite length_bytes_of_blocks in H. cbn in H. lia.
Qed.

End BlockFacts.

(** ** PKCS#7 padding *)

Module PaddingFacts.
Import Padding.

Lemma last_app_replicate (l : list byte) (n : nat) (x d : byte) :
  List.last (l ++ replicate (S n) x) d = x.
Proof.
  induction l as [|a l IH].
  - induction n as [|n IHn]; [reflexivity|].
    cbn [app] in *. change (replicate (S (S n)) x) with (x :: replicate (S n) x).
    cbn [List.last]. exact IHn.
  - cbn [app List.last]. rewrite IH.
    destruct (l ++ replicate (S n) x) eqn:E; [|reflexivity].
    destruct l; discriminate.
Qed.

Lemma pad_len_bounds (len : nat) : 1 <= 16 - len mod 16 <= 16.
Proof. pose proof (Nat.mod_upper_bound len 16). lia. Qed.

(** The padded length is the next multiple of 16 strictly above the
    length. *)
Lemma length_pad (p : list byte) :
  length (pad p 16) = 16 * (length p / 16 + 1).
Proof.
  unfold pad. rewrite length_app, length_replicate.
  pose proof (Nat.div_mod_eq (length p) 16).
  pose proof (Nat.mod_upper_bound (length p) 16). lia.
Qed.

Lemma length_pad_mod (p : list byte) : length (pad p 16) mod 16 = 0.
Proof.
  rewrite length_pad, Nat.mul_comm. apply Nat.Div0.mod_mul.
Qed.

(** [unpad] accepts a body followed by [n] octets of value [n]. *)
Lemma unpad_app_padding (body : list byte) (n bs : nat) :
  1 <= n <= bs -> n < 256 -> (length body + n) mod bs = 0 ->
  unpad (body ++ replicate n (bchr n)) bs = Ok body.
Proof.
  intros Hn H256 Hmod. unfold unpad.
  rewrite length_app, length_replicate.
  destruct (Nat.eqb_spec (length body + n) 0) as [E|_]; [lia|].
  rewrite Hmod. cbn [Nat.eqb negb].
  destruct n as [|n]; [lia|].
  rewrite last_app_replicate, bord_bchr by assumption.
  destruct (Nat.ltb_spec (S n) 1) as [E|_]; [lia|].
  destruct (Nat.ltb_spec (Nat.min bs (length body + S n)) (S n)) as [E|_]; [lia|].
  cbn [orb].
  replace (length body + S n - S n) with (length body) by lia.
  rewrite drop_app_length, take_app_length.
  rewrite bool_decide_eq_true_2 by reflexivity. reflexivity.
Qed.

(** Whatever [unpad] returns is the input without its padding. *)
Lemma unpad_Ok_inv (pp body : list byte) (bs : nat) :
  unpad pp bs = Ok body ->
  exists n, pp = body ++ replicate n (bchr n) /\ 1 <= n <= bs.
Proof.
  unfold unpad.
  destruct (length pp =? 0); [discriminate|].
  destruct (negb (length pp mod bs =? 0)); [discriminate|].
  set (n := bord (List.last pp x00)).
  destruct (Nat.ltb_spec n 1) as [|H1]; [discriminate|].
  destruct (Nat.ltb_spec (Nat.min bs (length pp)) n) as [|H2]; [discriminate|].
  cbn [orb].
  destruct (bool_decide_reflect
              (drop (length pp - n) pp = replicate n (bchr n))) as [E|];
    [|discriminate].
  cbn [negb]. intros [= <-]. exists n. split; [|lia].
  rewrite <- E. symmetry. apply take_drop.
Qed.

Lemma unpad_Raise_inv (pp : list byte) (bs : nat) (e : exn) :
  unpad pp bs = Raise e ->
  (e = ValueError ZeroLengthInput /\ pp = [])
  \/ (e = ValueError InputNotPadded /\ length pp mod bs <> 0)
  \/ (pp <> [] /\ length pp mod bs = 0 /\ PaddingInvalid e).
Proof.
  unfold unpad, PaddingInvalid.
  destruct (Nat.eqb_spec (length pp) 0) as [E0|E0].
  { intros [= <-]. left. split; [reflexivity|]. now apply length_zero_iff_nil. }
  assert (pp <> []) by (intros ->; apply E0; reflexivity).
  destruct (Nat.eqb_spec (length pp mod bs) 0) as [Em|Em]; cbn [negb].
  2: { intros [= <-]. right; left. auto. }
  destruct (_ || _).
  { intros [= <-]. right; right. auto. }
  destruct (negb _); [|discriminate].
  intros [= <-]. right; right. auto.
Qed.

Lemma unpad_pad (p : list byte) : unpad (pad p 16) 16 = Ok p.
Proof.
  unfold pad. pose proof (pad_len_bounds (length p)).
  apply unpad_app_padding; try lia.
  pose proof (length_pad_mod p) as Hm. unfold pad in Hm.
  now rewrite length_app, length_replicate in Hm.
Qed.

(** For a non-empty whole number of blocks, [unpad] succeeds exactly on
    well-formed padding, and otherwise reports invalid padding. *)
Lemma unpad_well_formed (pp : list byte) :
  pp <> [] -> length pp mod 16 = 0 ->
  (forall body n, pp = body ++ replicate n (bchr n) -> 1 <= n <= 16 ->
                  unpad pp 16 = Ok body)
  /\ (~ well_formed pp 16 ->
      exists e, unpad pp 16 = Raise e /\ PaddingInvalid e).
Proof.
  intros Hne Hmod. split.
  - intros body n -> Hn. apply unpad_app_padding; try lia.
    now rewrite length_app, length_replicate in Hmod.
  - intros Hwf. destruct (unpad pp 16) as [body|e] eqn:E.
    + exfalso. apply Hwf. destruct (unpad_Ok_inv _ _ _ E) as (n & -> & Hn).
      now exists body, n.
    + exists e. split; [reflexivity|].
      destruct (unpad_Raise_inv _ _ _ E) as [[_ ->]|[[_ Hm]|(_ & _ & Hp)]];
        [congruence | congruence | exact Hp].
Qed.

End PaddingFacts.

(** ** The CBC mode *)

Module CBCFacts.
Import AES CBC AESFacts BlockFacts.

Lemma decrypt_encrypt_blocks (rks : list state) (bs : list state) :
  forall prev, decrypt_blocks rks prev (encrypt_blocks rks prev bs) = bs.
Proof.
  induction bs as [|b bs IH]; intros prev; [reflexivity|].
  cbn [encrypt_blocks decrypt_blocks].
  now rewrite InvCipher_Cipher, xor_state_cancel, IH.
Qed.

Lemma length_encrypt_blocks (rks : list state) (bs : list state) :
  forall prev, length (encrypt_blocks rks prev bs) = length bs.
Proof.
  induction bs as [|b bs IH]; intros prev; [reflexivity|].
  cbn [encrypt_blocks length]. now rewrite IH.
Qed.

Lemma length_decrypt_blocks (rks : list state) (bs : list state) :
  forall prev, length (decrypt_blocks rks prev bs) = length bs.
Proof.
  induction bs as [|b bs IH]; intros prev; [reflexivity|].
  cbn [decrypt_blocks length]. now rewrite IH.
Qed.

Lemma key_size_ok_32 (key : list byte) :
  length key = 32 -> key_size_ok (length key) = true.
Proof. intros ->. reflexivity. Qed.

Lemma new_Ok (key iv : list byte) :
  key_size_ok (length key) = true -> length iv = 16 ->
  exists s, iv = bytes_of_state s
            /\ new key iv = Ok {| round_keys := KeyExpansion key; chain := s |}.
Proof.
  intros Hk Hiv. destruct (blocks_of_bytes_single iv Hiv) as (s & Hs & Heq).
  exists s. split; [exact Heq|]. unfold new. now rewrite Hk, Hs.
Qed.

Lemma new_bad_iv (key iv : list byte) :
  key_size_ok (length key) = true -> length iv <> 16 ->
  new key iv = Raise (ValueError IncorrectIVLength).
Proof.
  intros Hk Hiv. unfold new. rewrite Hk. cbn [negb].
  pose proof (blocks_of_bytes_not_single iv Hiv) as H.
  destruct (blocks_of_bytes iv) as [[|s [|s' bs]]|]; try reflexivity.
  destruct H.
Qed.

Lemma new_bad_key (key iv : list byte) :
  key_size_ok (length key) = false ->
  new key iv = Raise (ValueError (IncorrectKeyLength (length key))).
Proof. intros Hk. unfold new. now rewrite Hk. Qed.

Lemma encrypt_aligned (c : CbcMode) (data : list byte) :
  length data mod 16 = 0 ->
  exists ct, encrypt c data = Ok ct /\ length ct = length data
             /\ decrypt c ct = Ok data.
Proof.
  intros Hm. apply blocks_of_bytes_Some_iff in Hm. destruct Hm as [bs Hbs].
  unfold encrypt, decrypt. rewrite Hbs. eexists. split; [reflexivity|].
  split.
  - rewrite length_bytes_of_blocks, length_encrypt_blocks.
    apply bytes_of_blocks_of_bytes in Hbs. subst data.
    now rewrite length_bytes_of_blocks.
  - rewrite blocks_of_bytes_of_blocks, decrypt_encrypt_blocks.
    f_equal. now apply bytes_of_blocks_of_bytes.
Qed.

Lemma decrypt_aligned (c : CbcMode) (data : list byte) :
  length data mod 16 = 0 ->
  exists pp, decrypt c data = Ok pp /\ length pp = length data.
Proof.
  intros Hm. apply blocks_of_bytes_Some_iff in Hm. destruct Hm as [bs Hbs].
  unfold decrypt. rewrite Hbs. eexists. split; [reflexivity|].
  rewrite length_bytes_of_blocks, length_decrypt_blocks.
  apply bytes_of_blocks_of_bytes in Hbs. subst data.
  now rewrite length_bytes_of_blocks.
Qed.

Lemma decrypt_unaligned (c : CbcMode) (data : list byte) :
  length data mod 16 <> 0 ->
  decrypt c data = Raise (ValueError DataNotBlockAligned).
Proof.
  intros Hm. apply blocks_of_bytes_None_iff in Hm.
  unfold decrypt. now rewrite Hm.
Qed.

End CBCFacts.

(** ** What a run of the tool's functions does *)

Module ToolFacts.
Import CBCFacts PaddingFacts.

Lemma length_drawn (n : nat) (w : world) : length (drawn n w) = n.
Proof. unfold drawn. now rewrite List.length_map, List.length_seq. Qed.

Lemma files_advance (n : nat) (w : world) : files (advance n w) = files w.
Proof. reflexivity. Qed.

Lemma files_with_file (path : string) (data : list byte) (w : world) :
  files (with_file path data w) = <[path := data]> (files w).
Proof. reflexivity. Qed.

(** Opening a file for writing and writing two pieces leaves their
    concatenation in it. *)
Lemma write_two (path : string) (d1 d2 : list byte) (w : world) :
  (open_w path ;;; f_write path d1 ;;; f_write path d2) w
  = (Ok tt, with_file path (d1 ++ d2) w).
Proof.
  unfold bind, open_w, f_write, with_file. cbn [files entropy].
  rewrite !lookup_insert_eq. cbn [default].
  now rewrite !insert_insert_eq.
Qed.

Lemma write_one (path : string) (d : list byte) (w : world) :
  (open_w path ;;; f_write path d) w = (Ok tt, with_file path d w).
Proof.
  unfold bind, open_w, f_write, with_file. cbn [files entropy].
  rewrite !lookup_insert_eq. cbn [default].
  now rewrite !insert_insert_eq.
Qed.

Lemma encrypt_firmware_run (key : list byte) (inp out : string) (w : world) :
  encrypt_firmware key inp out w
  = match files w !! inp with
    | None => (Raise (FileNotFoundError inp), w)
    | Some plaintext =>
        match seal key (drawn BLOCK_SIZE w) plaintext with
        | Ok artifact => (Ok tt, with_file out artifact (advance BLOCK_SIZE w))
        | Raise e => (Raise e, advance BLOCK_SIZE w)
        end
    end.
Proof.
  unfold encrypt_firmware, bind at 1, read_binary.
  destruct (files w !! inp) as [p|]; [|reflexivity].
  unfold bind at 1, get_random_bytes. fold (drawn BLOCK_SIZE w).
  fold (advance BLOCK_SIZE w).
  unfold bind at 1, lift at 1, seal.
  destruct (CBC.new key (drawn BLOCK_SIZE w)) as [c|e]; [|reflexivity].
  unfold bind at 1, lift.
  destruct (CBC.encrypt c (Padding.pad p BLOCK_SIZE)) as [ct|e]; [|reflexivity].
  apply write_two.
Qed.

Lemma decrypt_firmware_run (key : list byte) (inp out : string) (w : world) :
  decrypt_firmware key inp out w
  = match files w !! inp with
    | None => (Raise (FileNotFoundError inp), w)
    | Some data =>
        match unseal key data with
        | Ok plaintext => (Ok tt, with_file out plaintext w)
        | Raise e => (Raise e, w)
        end
    end.
Proof.
  unfold decrypt_firmware, bind at 1, read_binary.
  destruct (files w !! inp) as [data|]; [|reflexivity].
  unfold bind at 1, lift at 1, unseal.
  destruct (CBC.new key (take BLOCK_SIZE data)) as [c|e]; [|reflexivity].
  unfold bind at 1, lift at 1.
  destruct (CBC.decrypt c (drop BLOCK_SIZE data)) as [pp|e]; [|reflexivity].
  unfold bind at 1, lift.
  destruct (Padding.unpad pp BLOCK_SIZE) as [p|e]; [|reflexivity].
  apply write_one.
Qed.

(** With a key of an accepted size and a 16-octet IV, sealing succeeds. *)
Lemma seal_Ok (key iv p : list byte) :
  CBC.key_size_ok (length key) = true -> length iv = 16 ->
  exists c ct,
    CBC.new key iv = Ok c
    /\ CBC.encrypt c (Padding.pad p 16) = Ok ct
    /\ seal key iv p = Ok (iv ++ ct)
    /\ length ct = 16 * (length p / 16 + 1)
    /\ CBC.decrypt c ct = Ok (Padding.pad p 16).
Proof.
  intros Hk Hiv. destruct (new_Ok key iv Hk Hiv) as (s & _ & Hnew).
  destruct (encrypt_aligned {| CBC.round_keys := AES.KeyExpansion key;
                               CBC.chain := s |}
                            (Padding.pad p 16) (length_pad_mod p))
    as (ct & Henc & Hlen & Hdec).
  exists {| CBC.round_keys := AES.KeyExpansion key; CBC.chain := s |}, ct.
  unfold seal, BLOCK_SIZE. rewrite Hnew, Henc, Hlen, length_pad. auto.
Qed.

Lemma unseal_app (key iv ct : list byte) :
  length iv = 16 ->
  unseal key (iv ++ ct)
  = match CBC.new key iv with
    | Ok c => match CBC.decrypt c ct with
              | Ok pp => Padding.unpad pp 16
              | Raise e => Raise e
              end
    | Raise e => Raise e
    end.
Proof.
  intros Hiv. unfold unseal, BLOCK_SIZE.
  rewrite <- Hiv, take_app_length, drop_app_length. reflexivity.
Qed.

Lemma unseal_seal (key iv p artifact : list byte) :
  CBC.key_size_ok (length key) = true -> length iv = 16 ->
  seal key iv p = Ok artifact -> unseal key artifact = Ok p.
Proof.
  intros Hk Hiv Hs.
  destruct (seal_Ok key iv p Hk Hiv) as (c & ct & Hnew & _ & Hs' & _ & Hdec).
  rewrite Hs' in Hs. injection Hs as <-.
  rewrite unseal_app, Hnew, Hdec by assumption. apply unpad_pad.
Qed.

End ToolFacts.

(** ** Counting keys and blocks *)

Module Counting.










End Counting.

(** ** Decrypting under another key *)

Module WrongKeyFacts.
Import AES CBC AESFacts BlockFacts CBCFacts PaddingFacts ToolFacts.



(** What [unpad] accepts, on a whole number of blocks, is the padding of
    what it returns. *)
Lemma unpad_Ok_is_pad (pp p : list byte) :
  Padding.unpad pp 16 = Ok p -> length pp mod 16 = 0 -> pp = Padding.pad p 16.
Proof.
  intros Hu Hm. destruct (unpad_Ok_inv _ _ _ Hu) as (n & -> & Hn).
  rewrite length_app, length_replicate in Hm.
  unfold Padding.pad.
  pose proof (Nat.div_mod_eq (length p + n) 16).
  pose proof (Nat.div_mod_eq (length p) 16).
  pose proof (Nat.mod_upper_bound (length p) 16).
  replace (16 - length p mod 16) with n by lia. reflexivity.
Qed.



End WrongKeyFacts.

(** ** The command line driver *)

Module MainFacts.
Import CBCFacts ToolFacts.

Lemma truthy_Some (s : string) : s <> EmptyString -> truthy (Some s) = true.
Proof.
  intros H. unfold truthy. apply negb_true_iff. now apply String.eqb_neq.
Qed.


Lemma main_decrypt_run (key : list byte) (a : args) (w : world)
      (inp : string) :
  generate_key a = false -> decrypt a = true ->
  input a = Some inp -> inp <> EmptyString ->
  main key a w
  = decrypt_firmware key inp
      (if truthy (output a) then default EmptyString (output a)
       else str_replace inp ".enc" "_decrypted.bin") w.
Proof.
  intros Hg Hd Hi Hin. unfold main.
  rewrite Hg, Hd, Hi, truthy_Some by assumption. reflexivity.
Qed.



End MainFacts.

(* ===================================================================== *)
(** * The envelope: claims of the specification *)
(* ===================================================================== *)

Import CBCFacts PaddingFacts ToolFacts.

(** C1. Round trip: for every file contents [p] (the empty one included),
    every key of 32 octets and every supply of random octets, encrypting
    the file and decrypting the artifact with the same key writes exactly
    [p]. *)
Theorem roundtrip (key : list byte) (w : world)
        (input_path enc_path output_path : string) (p : list byte) :
  length key = 32 ->
  files w !! input_path = Some p ->
  exists w1 w2,
    encrypt_firmware key input_path enc_path w = (Ok tt, w1)
    /\ decrypt_firmware key enc_path output_path w1 = (Ok tt, w2)
    /\ files w2 !! output_path = Some p.
Proof.
  intros Hk Hp. apply key_size_ok_32 in Hk.
  destruct (seal_Ok key (drawn 16 w) p Hk (length_drawn 16 w))
    as (c & ct & _ & _ & Hseal & _).
  rewrite encrypt_firmware_run, Hp. unfold BLOCK_SIZE. rewrite Hseal.
  eexists _, _. split; [reflexivity|].
  rewrite decrypt_firmware_run, files_with_file, lookup_insert_eq.
  rewrite (unseal_seal key (drawn 16 w) p _ Hk (length_drawn 16 w) Hseal).
  split; [reflexivity|].
  rewrite files_with_file. apply lookup_insert_eq.
Qed.

Lemma roundtrip_witness :
  length Sample.key = 32
  /\ files Sample.w !! "empty.bin"%string = Some []
  /\ exists w1 w2,
      encrypt_firmware Sample.key "empty.bin" "fw.enc" Sample.w = (Ok tt, w1)
      /\ decrypt_firmware Sample.key "fw.enc" "out.bin" w1 = (Ok tt, w2)
      /\ files w2 !! "out.bin"%string = Some [].
Proof.
  split; [reflexivity|]. split; [reflexivity|].
  apply (roundtrip Sample.key Sample.w "empty.bin" "fw.enc" "out.bin");
    reflexivity.
Defined.

(** C2. Format of the artifact: the file written by [encrypt_firmware] is
    the 16 random octets (the IV) followed by the CBC ciphertext of the
    padded contents; its length is 16 plus the ciphertext length; the
    ciphertext length is a positive multiple of 16, and is 16 for empty
    contents. *)
Theorem artifact_format (key : list byte) (w : world)
        (input_path output_path : string) (p : list byte) :
  length key = 32 ->
  files w !! input_path = Some p ->
  exists w' iv cipher ciphertext,
    encrypt_firmware key input_path output_path w = (Ok tt, w')
    /\ files w' !! output_path = Some (iv ++ ciphertext)
    /\ iv = List.map (entropy w) (List.seq 0 16)
    /\ length iv = 16
    /\ CBC.new key iv = Ok cipher
    /\ CBC.encrypt cipher (Padding.pad p 16) = Ok ciphertext
    /\ length (iv ++ ciphertext) = 16 + length ciphertext
    /\ 0 < length ciphertext
    /\ length ciphertext mod 16 = 0
    /\ (p = [] -> length ciphertext = 16).
Proof.
  intros Hk Hp. apply key_size_ok_32 in Hk.
  destruct (seal_Ok key (drawn 16 w) p Hk (length_drawn 16 w))
    as (c & ct & Hnew & Henc & Hseal & Hlen & _).
  rewrite encrypt_firmware_run, Hp. unfold BLOCK_SIZE. rewrite Hseal.
  exists (with_file output_path (drawn 16 w ++ ct) (advance 16 w)),
    (drawn 16 w), c, ct.
  split; [reflexivity|].
  split; [rewrite files_with_file; apply lookup_insert_eq|].
  split; [reflexivity|].
  split; [apply length_drawn|].
  split; [exact Hnew|]. split; [exact Henc|].
  split; [rewrite length_app, length_drawn; reflexivity|].
  split; [lia|].
  split; [rewrite Hlen, Nat.mul_comm; apply Nat.Div0.mod_mul|].
  intros ->. rewrite Hlen. reflexivity.
Qed.

Lemma artifact_format_witness :
  length AES_KEY = 32
  /\ files Sample.w !! "fw.bin"%string = Some Sample.firmware
  /\ exists w' iv cipher ciphertext,
      encrypt_firmware AES_KEY "fw.bin" "fw.enc" Sample.w = (Ok tt, w')
      /\ files w' !! "fw.enc"%string = Some (iv ++ ciphertext)
      /\ iv = List.map (entropy Sample.w) (List.seq 0 16)
      /\ length iv = 16
      /\ CBC.new AES_KEY iv = Ok cipher
      /\ CBC.encrypt cipher (Padding.pad Sample.firmware 16) = Ok ciphertext
      /\ length (iv ++ ciphertext) = 16 + length ciphertext
      /\ 0 < length ciphertext
      /\ length ciphertext mod 16 = 0
      /\ (Sample.firmware = [] -> length ciphertext = 16).
Proof.
  split; [reflexivity|]. split; [reflexivity|].
  apply (artifact_format AES_KEY Sample.w "fw.bin" "fw.enc"); reflexivity.
Defined.

(** C8. Exact size: the artifact has [16 + 16 * (len p / 16 + 1)] octets,
    which is between 17 and 32 more than the contents. *)
Theorem artifact_size (key : list byte) (w : world)
        (input_path output_path : string) (p : list byte) :
  length key = 32 ->
  files w !! input_path = Some p ->
  exists w' artifact,
    encrypt_firmware key input_path output_path w = (Ok tt, w')
    /\ files w' !! output_path = Some artifact
    /\ length artifact = 16 + 16 * (length p / 16 + 1)
    /\ length p + 17 <= length artifact <= length p + 32.
Proof.
  intros Hk Hp. apply key_size_ok_32 in Hk.
  destruct (seal_Ok key (drawn 16 w) p Hk (length_drawn 16 w))
    as (c & ct & _ & _ & Hseal & Hlen & _).
  rewrite encrypt_firmware_run, Hp. unfold BLOCK_SIZE. rewrite Hseal.
  eexists _, _. split; [reflexivity|].
  split; [rewrite files_with_file; apply lookup_insert_eq|].
  rewrite length_app, length_drawn, Hlen.
  pose proof (Nat.div_mod_eq (length p) 16).
  pose proof (Nat.mod_upper_bound (length p) 16). lia.
Qed.

Lemma artifact_size_witness :
  length AES_KEY = 32
  /\ files Sample.w !! "fw.bin"%string = Some Sample.firmware
  /\ exists w' artifact,
      encrypt_firmware AES_KEY "fw.bin" "fw.enc" Sample.w = (Ok tt, w')
      /\ files w' !! "fw.enc"%string = Some artifact
      /\ length artifact = 16 + 16 * (length Sample.firmware / 16 + 1)
      /\ length Sample.firmware + 17 <= length artifact
         <= length Sample.firmware + 32.
Proof.
  split; [reflexivity|]. split; [reflexivity|].
  apply (artifact_size AES_KEY Sample.w "fw.bin" "fw.enc"); reflexivity.
Defined.

(** C9. Determinism given the IV: two runs of [encrypt_firmware] under the
    same key, on files with the same contents (whatever their names and
    whatever else the two worlds hold) and with the same next 16 random
    octets, write the same artifact. *)
Theorem encrypt_determined_by_iv (key : list byte) (w1 w2 : world)
        (in1 out1 in2 out2 : string) (p : list byte) :
  length key = 32 ->
  files w1 !! in1 = Some p ->
  files w2 !! in2 = Some p ->
  (forall i, i < 16 -> entropy w1 i = entropy w2 i) ->
  exists w1' w2' artifact,
    encrypt_firmware key in1 out1 w1 = (Ok tt, w1')
    /\ encrypt_firmware key in2 out2 w2 = (Ok tt, w2')
    /\ files w1' !! out1 = Some artifact
    /\ files w2' !! out2 = Some artifact.
Proof.
  intros Hk H1 H2 Hiv. apply key_size_ok_32 in Hk.
  assert (drawn 16 w2 = drawn 16 w1) as Hd.
  { unfold drawn. apply List.map_ext_in. intros i Hi.
    apply List.in_seq in Hi. symmetry. apply Hiv. lia. }
  destruct (seal_Ok key (drawn 16 w1) p Hk (length_drawn 16 w1))
    as (c & ct & _ & _ & Hseal & _).
  rewrite !encrypt_firmware_run, H1, H2. unfold BLOCK_SIZE.
  rewrite Hd, Hseal.
  eexists _, _, _. split; [reflexivity|]. split; [reflexivity|].
  rewrite !files_with_file, !lookup_insert_eq. auto.
Qed.

Lemma encrypt_determined_by_iv_witness :
  length Sample.key = 32
  /\ files Sample.w !! "fw.bin"%string = Some Sample.firmware
  /\ files Sample.w' !! "build/app.bin"%string = Some Sample.firmware
  /\ (forall i, i < 16 -> entropy Sample.w i = entropy Sample.w' i)
  /\ exists w1' w2' artifact,
      encrypt_firmware Sample.key "fw.bin" "fw.enc" Sample.w = (Ok tt, w1')
      /\ encrypt_firmware Sample.key "build/app.bin" "notes.txt" Sample.w'
         = (Ok tt, w2')
      /\ files w1' !! "fw.enc"%string = Some artifact
      /\ files w2' !! "notes.txt"%string = Some artifact.
Proof.
  assert (forall i, i < 16 -> entropy Sample.w i = entropy Sample.w' i) as H.
  { intros i Hi. cbn [entropy Sample.w Sample.w'].
    destruct (Nat.ltb_spec i 16); [reflexivity | lia]. }
  split; [reflexivity|]. split; [reflexivity|]. split; [reflexivity|].
  split; [exact H|].
  apply (encrypt_determined_by_iv Sample.key Sample.w Sample.w'
           "fw.bin" "fw.enc" "build/app.bin" "notes.txt" Sample.firmware);
    try reflexivity.
  exact H.
Defined.

(** C3. Malformed artifacts: when the input file has fewer than 16 octets,
    or what follows its first 16 octets is not a positive multiple of 16
    octets long, [decrypt_firmware] raises an error of the malformed
    artifact kind, and the world is left as it was: nothing is written. *)
Theorem malformed_artifact_rejected (key : list byte) (w : world)
        (input_path output_path : string) (data : list byte) :
  length key = 32 ->
  files w !! input_path = Some data ->
  length data < 16
  \/ ~ (0 < length data - 16 /\ (length data - 16) mod 16 = 0) ->
  exists e,
    decrypt_firmware key input_path output_path w = (Raise e, w)
    /\ MalformedArtifact e.
Proof.
  intros Hk Hdata Hbad. apply key_size_ok_32 in Hk.
  rewrite decrypt_firmware_run, Hdata. unfold unseal, BLOCK_SIZE, MalformedArtifact.
  destruct (Nat.lt_ge_cases (length data) 16) as [Hlt|Hge].
  - rewrite new_bad_iv by (try assumption; rewrite length_take; lia). eauto.
  - destruct (new_Ok key (take 16 data) Hk) as (s & _ & ->);
      [rewrite length_take; lia|].
    destruct (Nat.eq_dec (length data - 16) 0) as [Hz|Hnz].
    + assert (drop 16 data = []) as ->
          by (apply length_zero_iff_nil; rewrite length_drop; exact Hz).
      cbn. eauto.
    + rewrite decrypt_unaligned by (rewrite length_drop; lia). eauto.
Qed.

Lemma malformed_artifact_rejected_witness :
  length Sample.key = 32
  /\ files Sample.w !! "fw.bin"%string = Some Sample.firmware
  /\ (length Sample.firmware < 16
      \/ ~ (0 < length Sample.firmware - 16
            /\ (length Sample.firmware - 16) mod 16 = 0))
  /\ exists e,
      decrypt_firmware Sample.key "fw.bin" "out.bin" Sample.w
      = (Raise e, Sample.w)
      /\ MalformedArtifact e.
Proof.
  assert (length Sample.firmware < 16) as H by (cbn; lia).
  split; [reflexivity|]. split; [reflexivity|]. split; [left; exact H|].
  apply (malformed_artifact_rejected Sample.key Sample.w "fw.bin" "out.bin"
           Sample.firmware); [reflexivity | reflexivity | left; exact H].
Defined.

(** C4. Padding: when the input file has at least 32 octets and a whole
    number of blocks after the first 16, [decrypt_firmware] takes the first
    16 octets as IV and CBC-decrypts the rest; if the result ends in
    well-formed PKCS#7 padding the output file receives the result without
    it, and otherwise an invalid padding error is raised and nothing is
    written. *)
Theorem padding_checked (key : list byte) (w : world)
        (input_path output_path : string) (data : list byte) :
  length key = 32 ->
  files w !! input_path = Some data ->
  32 <= length data ->
  (length data - 16) mod 16 = 0 ->
  exists cipher padded,
    CBC.new key (take 16 data) = Ok cipher
    /\ CBC.decrypt cipher (drop 16 data) = Ok padded
    /\ (forall body n,
           padded = body ++ replicate n (bchr n) -> 1 <= n <= 16 ->
           decrypt_firmware key input_path output_path w
           = (Ok tt, with_file output_path body w))
    /\ (~ Padding.well_formed padded 16 ->
        exists e,
          decrypt_firmware key input_path output_path w = (Raise e, w)
          /\ PaddingInvalid e).
Proof.
  intros Hk Hdata Hlen Hmod. apply key_size_ok_32 in Hk.
  destruct (new_Ok key (take 16 data) Hk) as (s & _ & Hnew);
    [rewrite length_take; lia|].
  set (c := {| CBC.round_keys := AES.KeyExpansion key; CBC.chain := s |}) in *.
  destruct (decrypt_aligned c (drop 16 data)) as (pp & Hdec & Hpp);
    [rewrite length_drop; exact Hmod|].
  rewrite length_drop in Hpp.
  assert (pp <> []) as Hne by (intros ->; cbn in Hpp; lia).
  assert (length pp mod 16 = 0) as Hppm by (rewrite Hpp; exact Hmod).
  destruct (unpad_well_formed pp Hne Hppm) as [Hok Hbad].
  exists c, pp. split; [exact Hnew|]. split; [exact Hdec|].
  rewrite decrypt_firmware_run, Hdata. unfold unseal, BLOCK_SIZE.
  rewrite Hnew, Hdec. split.
  - intros body n Hb Hn. now rewrite (Hok body n Hb Hn).
  - intros Hwf. destruct (Hbad Hwf) as (e & -> & He). eauto.
Qed.

Lemma padding_checked_witness :
  length Sample.key = 32
  /\ files Sample.w_enc !! "fw.enc"%string = Some Sample.artifact
  /\ 32 <= length Sample.artifact
  /\ (length Sample.artifact - 16) mod 16 = 0
  /\ exists cipher padded,
      CBC.new Sample.key (take 16 Sample.artifact) = Ok cipher
      /\ CBC.decrypt cipher (drop 16 Sample.artifact) = Ok padded
      /\ (forall body n,
             padded = body ++ replicate n (bchr n) -> 1 <= n <= 16 ->
             decrypt_firmware Sample.key "fw.enc" "out.bin" Sample.w_enc
             = (Ok tt, with_file "out.bin" body Sample.w_enc))
      /\ (~ Padding.well_formed padded 16 ->
          exists e,
            decrypt_firmware Sample.key "fw.enc" "out.bin" Sample.w_enc
            = (Raise e, Sample.w_enc)
            /\ PaddingInvalid e).
Proof.
  split; [reflexivity|]. split; [reflexivity|].
  split; [vm_compute; lia|]. split; [reflexivity|].
  apply (padding_checked Sample.key Sample.w_enc "fw.enc" "out.bin"
           Sample.artifact);
    [reflexivity | reflexivity | vm_compute; lia | reflexivity].
Defined.













(* ===================================================================== *)
(** * Further properties of the tool *)
(* ===================================================================== *)

Import AESFacts BlockFacts CBCFacts PaddingFacts ToolFacts.

(** ** When the two functions fail before looking at the contents *)

Module FailureFacts.

Lemma key_size_ok_false (key : list byte) :
  length key <> 16 -> length key <> 24 -> length key <> 32 ->
  CBC.key_size_ok (length key) = false.
Proof.
  intros H1 H2 H3. unfold CBC.key_size_ok.
  destruct (Nat.eqb_spec (length key) 16); [congruence|].
  destruct (Nat.eqb_spec (length key) 24); [congruence|].
  destruct (Nat.eqb_spec (length key) 32); [congruence|]. reflexivity.
Qed.

Lemma key_size_ok_cases (key : list byte) :
  CBC.key_size_ok (length key) = true
  <-> length key = 16 \/ length key = 24 \/ length key = 32.
Proof.
  unfold CBC.key_size_ok.
  destruct (Nat.eqb_spec (length key) 16), (Nat.eqb_spec (length key) 24),
    (Nat.eqb_spec (length key) 32); cbn; split; intros H;
    try tauto; try discriminate; lia.
Qed.


Lemma unseal_bad_key (key data : list byte) :
  CBC.key_size_ok (length key) = false ->
  unseal key data = Raise (ValueError (IncorrectKeyLength (length key))).
Proof. intros Hk. unfold unseal. now rewrite new_bad_key. Qed.

End FailureFacts.


(** X2. [decrypt_firmware] reports a missing input file first and a key of
    the wrong size next, whatever the file holds, even a file too short to
    contain an IV; in both cases the world is left as it was. *)
Theorem decrypt_early_failures (key : list byte) (w : world)
        (input_path output_path : string) :
  (files w !! input_path = None ->
   decrypt_firmware key input_path output_path w
   = (Raise (FileNotFoundError input_path), w))
  /\ (forall data,
         files w !! input_path = Some data ->
         length key <> 16 -> length key <> 24 -> length key <> 32 ->
         decrypt_firmware key input_path output_path w
         = (Raise (ValueError (IncorrectKeyLength (length key))), w)).
Proof.
  split.
  - intros H. now rewrite decrypt_firmware_run, H.
  - intros data H H1 H2 H3.
    rewrite decrypt_firmware_run, H.
    now rewrite FailureFacts.unseal_bad_key
      by now apply FailureFacts.key_size_ok_false.
Qed.

(** X3. Keys of 16 and of 24 octets are accepted as well (AES-128 and
    AES-192): the artifact has the same size as under a 32-octet key and
    decrypts back to the contents. *)
Theorem shorter_keys_accepted (key : list byte) (w : world)
        (input_path enc_path output_path : string) (p : list byte) :
  length key = 16 \/ length key = 24 ->
  files w !! input_path = Some p ->
  exists w1 w2 artifact,
    encrypt_firmware key input_path enc_path w = (Ok tt, w1)
    /\ files w1 !! enc_path = Some artifact
    /\ length artifact = 16 + 16 * (length p / 16 + 1)
    /\ decrypt_firmware key enc_path output_path w1 = (Ok tt, w2)
    /\ files w2 !! output_path = Some p.
Proof.
  intros Hk Hp.
  assert (CBC.key_size_ok (length key) = true) as Hk'
      by (apply FailureFacts.key_size_ok_cases; tauto).
  destruct (seal_Ok key (drawn 16 w) p Hk' (length_drawn 16 w))
    as (c & ct & _ & _ & Hseal & Hlen & _).
  rewrite encrypt_firmware_run, Hp. unfold BLOCK_SIZE. rewrite Hseal.
  eexists _, _, _. split; [reflexivity|].
  split; [rewrite files_with_file; apply lookup_insert_eq|].
  split; [rewrite length_app, length_drawn, Hlen; reflexivity|].
  rewrite decrypt_firmware_run, files_with_file, lookup_insert_eq.
  rewrite (unseal_seal key (drawn 16 w) p _ Hk' (length_drawn 16 w) Hseal).
  split; [reflexivity|].
  rewrite files_with_file. apply lookup_insert_eq.
Qed.

Lemma shorter_keys_accepted_witness :
  (length (take 16 Sample.key) = 16 \/ length (take 16 Sample.key) = 24)
  /\ files Sample.w !! "fw.bin"%string = Some Sample.firmware
  /\ exists w1 w2 artifact,
      encrypt_firmware (take 16 Sample.key) "fw.bin" "fw.enc" Sample.w
      = (Ok tt, w1)
      /\ files w1 !! "fw.enc"%string = Some artifact
      /\ length artifact = 16 + 16 * (length Sample.firmware / 16 + 1)
      /\ decrypt_firmware (take 16 Sample.key) "fw.enc" "out.bin" w1
         = (Ok tt, w2)
      /\ files w2 !! "out.bin"%string = Some Sample.firmware.
Proof.
  split; [left; reflexivity|]. split; [reflexivity|].
  apply (shorter_keys_accepted (take 16 Sample.key) Sample.w
           "fw.bin" "fw.enc" "out.bin" Sample.firmware);
    [left; reflexivity | reflexivity].
Defined.

(** ** The IV and the first ciphertext block *)

Module IVFacts.
Import AES CBC.

Lemma drawn_advance (n m : nat) (w : world) :
  drawn n (advance m w) = List.map (entropy w) (List.seq m n).
Proof.
  unfold drawn, advance. cbn [entropy].
  rewrite <- (List.map_map (Nat.add m) (entropy w)).
  f_equal. change (List.map (Nat.add m) (seq 0 n)) with (Nat.add m <$> seq 0 n).
  rewrite fmap_add_seq. f_equal. lia.
Qed.

Lemma xor_word_comm (u v : word) : xor_word u v = xor_word v u.
Proof.
  destruct u, v. cbv [xor_word w0 w1 w2 w3].
  f_equal; apply bxor_comm.
Qed.

Lemma xor_state_comm (s t : state) : xor_state s t = xor_state t s.
Proof.
  destruct s, t. cbv [xor_state col0 col1 col2 col3].
  f_equal; apply xor_word_comm.
Qed.

Lemma xor_state_inj_r (b s t : state) :
  xor_state b s = xor_state b t -> s = t.
Proof.
  intros H. rewrite (xor_state_comm b s), (xor_state_comm b t) in H.
  apply (f_equal (fun x => xor_state x b)) in H.
  now rewrite !AESFacts.xor_state_cancel in H.
Qed.

Lemma Cipher_inj (rks : list state) (s t : state) :
  Cipher rks s = Cipher rks t -> s = t.
Proof.
  intros H. apply (f_equal (InvCipher rks)) in H.
  now rewrite !AESFacts.InvCipher_Cipher in H.
Qed.

Lemma bytes_of_state_inj (s t : state) :
  bytes_of_state s = bytes_of_state t -> s = t.
Proof.
  destruct s as [[] [] [] []], t as [[] [] [] []].
  cbv [bytes_of_state bytes_of_word col0 col1 col2 col3 w0 w1 w2 w3 app].
  intros H. injection H. intros. subst. reflexivity.
Qed.

(** The padded contents start with a block. *)
Lemma pad_first_block (p : list byte) :
  exists b1 bs, blocks_of_bytes (Padding.pad p 16) = Some (b1 :: bs).
Proof.
  pose proof (PaddingFacts.length_pad_mod p) as Hm.
  apply BlockFacts.blocks_of_bytes_Some_iff in Hm. destruct Hm as [bs Hbs].
  destruct bs as [|b1 bs]; [|eauto].
  apply BlockFacts.bytes_of_blocks_of_bytes in Hbs.
  apply (f_equal length) in Hbs. rewrite PaddingFacts.length_pad in Hbs.
  cbn in Hbs. lia.
Qed.

(** The artifact, block by block: the IV, then the encryption of the first
    padded block mixed with the IV. *)
Lemma seal_first_block (key iv p : list byte) (ivs b1 : state) (bs : list state) :
  key_size_ok (length key) = true ->
  iv = bytes_of_state ivs ->
  blocks_of_bytes (Padding.pad p 16) = Some (b1 :: bs) ->
  let c1 := Cipher (KeyExpansion key) (xor_state b1 ivs) in
  seal key iv p
  = Ok (iv ++ bytes_of_state c1
           ++ bytes_of_blocks (encrypt_blocks (KeyExpansion key) c1 bs)).
Proof.
  intros Hk -> Hb. cbn zeta.
  destruct (CBCFacts.new_Ok key (bytes_of_state ivs) Hk
              (BlockFacts.length_bytes_of_state ivs)) as (s & Hs & Hnew).
  apply bytes_of_state_inj in Hs. subst s.
  unfold seal, BLOCK_SIZE. rewrite Hnew. unfold encrypt. rewrite Hb.
  cbn [round_keys chain encrypt_blocks]. reflexivity.
Qed.

End IVFacts.

(** X4. Two encryptions in a row take their IVs from consecutive stretches
    of the random supply: the first artifact starts with octets 0..15, the
    second with octets 16..31, and the supply has then moved on by 32. *)
Theorem successive_encryptions (key : list byte) (w : world)
        (input_path out1 out2 : string) (p : list byte) :
  length key = 32 ->
  files w !! input_path = Some p ->
  input_path <> out1 ->
  exists w1 w2 ct1 ct2,
    encrypt_firmware key input_path out1 w = (Ok tt, w1)
    /\ encrypt_firmware key input_path out2 w1 = (Ok tt, w2)
    /\ files w1 !! out1 = Some (List.map (entropy w) (List.seq 0 16) ++ ct1)
    /\ files w2 !! out2 = Some (List.map (entropy w) (List.seq 16 16) ++ ct2)
    /\ forall i, entropy w2 i = entropy w (32 + i).
Proof.
  intros Hk Hp Hne. apply key_size_ok_32 in Hk.
  destruct (seal_Ok key (drawn 16 w) p Hk (length_drawn 16 w))
    as (c1 & ct1 & _ & _ & Hs1 & _).
  destruct (seal_Ok key (drawn 16 (advance 16 w)) p Hk
              (length_drawn 16 (advance 16 w)))
    as (c2 & ct2 & _ & _ & Hs2 & _).
  exists (with_file out1 (drawn 16 w ++ ct1) (advance 16 w)),
    (with_file out2 (drawn 16 (advance 16 w) ++ ct2)
       (advance 16 (with_file out1 (drawn 16 w ++ ct1) (advance 16 w)))),
    ct1, ct2.
  split.
  { rewrite encrypt_firmware_run, Hp. unfold BLOCK_SIZE. now rewrite Hs1. }
  split.
  { rewrite encrypt_firmware_run, files_with_file, files_advance.
    rewrite lookup_insert_ne by congruence. rewrite Hp. unfold BLOCK_SIZE.
    change (drawn 16 (with_file out1 (drawn 16 w ++ ct1) (advance 16 w)))
      with (drawn 16 (advance 16 w)).
    now rewrite Hs2. }
  split; [rewrite files_with_file; apply lookup_insert_eq|].
  split.
  - rewrite files_with_file, lookup_insert_eq.
    now rewrite IVFacts.drawn_advance.
  - intros i. cbn [entropy with_file advance]. f_equal; lia.
Qed.

Lemma successive_encryptions_witness :
  length Sample.key = 32
  /\ files Sample.w !! "fw.bin"%string = Some Sample.firmware
  /\ "fw.bin"%string <> "a.enc"%string
  /\ exists w1 w2 ct1 ct2,
      encrypt_firmware Sample.key "fw.bin" "a.enc" Sample.w = (Ok tt, w1)
      /\ encrypt_firmware Sample.key "fw.bin" "b.enc" w1 = (Ok tt, w2)
      /\ files w1 !! "a.enc"%string
         = Some (List.map (entropy Sample.w) (List.seq 0 16) ++ ct1)
      /\ files w2 !! "b.enc"%string
         = Some (List.map (entropy Sample.w) (List.seq 16 16) ++ ct2)
      /\ forall i, entropy w2 i = entropy Sample.w (32 + i).
Proof.
  assert ("fw.bin"%string <> "a.enc"%string) as H by discriminate.
  split; [reflexivity|]. split; [reflexivity|]. split; [exact H|].
  exact (successive_encryptions Sample.key Sample.w "fw.bin" "a.enc" "b.enc"
           Sample.firmware eq_refl eq_refl H).
Defined.

(** X5. The IV hides equal contents: when the same contents are encrypted
    under the same key with two different IVs, the first ciphertext blocks
    of the two artifacts differ. *)
Theorem fresh_iv_changes_ciphertext (key : list byte) (w1 w2 : world)
        (in1 out1 in2 out2 : string) (p : list byte) :
  length key = 32 ->
  files w1 !! in1 = Some p ->
  files w2 !! in2 = Some p ->
  List.map (entropy w1) (List.seq 0 16) <> List.map (entropy w2) (List.seq 0 16) ->
  exists w1' w2' a1 a2,
    encrypt_firmware key in1 out1 w1 = (Ok tt, w1')
    /\ encrypt_firmware key in2 out2 w2 = (Ok tt, w2')
    /\ files w1' !! out1 = Some a1
    /\ files w2' !! out2 = Some a2
    /\ take 16 (drop 16 a1) <> take 16 (drop 16 a2).
Proof.
  intros Hk H1 H2 Hiv. apply key_size_ok_32 in Hk.
  fold (drawn 16 w1) in Hiv. fold (drawn 16 w2) in Hiv.
  destruct (BlockFacts.blocks_of_bytes_single (drawn 16 w1) (length_drawn 16 w1))
    as (s1 & _ & Hs1).
  destruct (BlockFacts.blocks_of_bytes_single (drawn 16 w2) (length_drawn 16 w2))
    as (s2 & _ & Hs2).
  destruct (IVFacts.pad_first_block p) as (b1 & bs & Hb).
  pose proof (IVFacts.seal_first_block key _ p s1 b1 bs Hk Hs1 Hb) as E1.
  pose proof (IVFacts.seal_first_block key _ p s2 b1 bs Hk Hs2 Hb) as E2.
  cbn zeta in E1, E2.
  rewrite !encrypt_firmware_run, H1, H2. unfold BLOCK_SIZE. rewrite E1, E2.
  eexists _, _, _, _. split; [reflexivity|]. split; [reflexivity|].
  split; [rewrite files_with_file; apply lookup_insert_eq|].
  split; [rewrite files_with_file; apply lookup_insert_eq|].
  rewrite <- (length_drawn 16 w1) at 2. rewrite drop_app_length.
  rewrite <- (length_drawn 16 w2) at 3. rewrite drop_app_length.
  rewrite <- (BlockFacts.length_bytes_of_state
                (AES.Cipher (AES.KeyExpansion key) (AES.xor_state b1 s1))) at 1.
  rewrite take_app_length.
  rewrite <- (BlockFacts.length_bytes_of_state
                (AES.Cipher (AES.KeyExpansion key) (AES.xor_state b1 s2))) at 1.
  rewrite take_app_length.
  intros E. apply IVFacts.bytes_of_state_inj, IVFacts.Cipher_inj,
              IVFacts.xor_state_inj_r in E.
  apply Hiv. congruence.
Qed.

(** X6. The artifact determines the contents: if two encryptions under the
    same key leave the same octets in their output files, the two input
    files had the same contents. *)
Theorem artifact_determines_contents (key : list byte) (w1 w2 : world)
        (in1 out1 in2 out2 : string) (p1 p2 : list byte) :
  length key = 32 ->
  files w1 !! in1 = Some p1 ->
  files w2 !! in2 = Some p2 ->
  files (snd (encrypt_firmware key in1 out1 w1)) !! out1
  = files (snd (encrypt_firmware key in2 out2 w2)) !! out2 ->
  p1 = p2.
Proof.
  intros Hk H1 H2. apply key_size_ok_32 in Hk.
  destruct (seal_Ok key (drawn 16 w1) p1 Hk (length_drawn 16 w1))
    as (c1 & ct1 & _ & _ & Hs1 & _).
  destruct (seal_Ok key (drawn 16 w2) p2 Hk (length_drawn 16 w2))
    as (c2 & ct2 & _ & _ & Hs2 & _).
  rewrite !encrypt_firmware_run, H1, H2. unfold BLOCK_SIZE.
  rewrite Hs1, Hs2. cbn [snd].
  rewrite !files_with_file, !lookup_insert_eq. intros E.
  assert (drawn 16 w1 ++ ct1 = drawn 16 w2 ++ ct2) as E' by congruence.
  pose proof (unseal_seal key _ p1 _ Hk (length_drawn 16 w1) Hs1) as U1.
  pose proof (unseal_seal key _ p2 _ Hk (length_drawn 16 w2) Hs2) as U2.
  rewrite E' in U1. congruence.
Qed.

Lemma fresh_iv_changes_ciphertext_witness :
  length Sample.key = 32
  /\ files Sample.w !! "fw.bin"%string = Some Sample.firmware
  /\ files Cases.w_other !! "fw.bin"%string = Some Sample.firmware
  /\ List.map (entropy Sample.w) (List.seq 0 16)
     <> List.map (entropy Cases.w_other) (List.seq 0 16)
  /\ exists w1' w2' a1 a2,
      encrypt_firmware Sample.key "fw.bin" "fw.enc" Sample.w = (Ok tt, w1')
      /\ encrypt_firmware Sample.key "fw.bin" "fw.enc" Cases.w_other
         = (Ok tt, w2')
      /\ files w1' !! "fw.enc"%string = Some a1
      /\ files w2' !! "fw.enc"%string = Some a2
      /\ take 16 (drop 16 a1) <> take 16 (drop 16 a2).
Proof.
  assert (List.map (entropy Sample.w) (List.seq 0 16)
          <> List.map (entropy Cases.w_other) (List.seq 0 16)) as H
      by (vm_compute; discriminate).
  split; [reflexivity|]. split; [reflexivity|]. split; [reflexivity|].
  split; [exact H|].
  exact (fresh_iv_changes_ciphertext Sample.key Sample.w Cases.w_other
           "fw.bin" "fw.enc" "fw.bin" "fw.enc" Sample.firmware
           eq_refl eq_refl eq_refl H).
Defined.

Lemma artifact_determines_contents_witness :
  length Sample.key = 32
  /\ files Sample.w !! "fw.bin"%string = Some Sample.firmware
  /\ files Sample.w' !! "build/app.bin"%string = Some Sample.firmware
  /\ files (snd (encrypt_firmware Sample.key "fw.bin" "a.enc" Sample.w))
       !! "a.enc"%string
     = files (snd (encrypt_firmware Sample.key "build/app.bin" "b.enc"
                     Sample.w')) !! "b.enc"%string
  /\ Sample.firmware = Sample.firmware.
Proof.
  assert (files (snd (encrypt_firmware Sample.key "fw.bin" "a.enc" Sample.w))
            !! "a.enc"%string
          = files (snd (encrypt_firmware Sample.key "build/app.bin" "b.enc"
                          Sample.w')) !! "b.enc"%string) as H
      by (vm_compute; reflexivity).
  split; [reflexivity|]. split; [reflexivity|]. split; [reflexivity|].
  split; [exact H|].
  exact (artifact_determines_contents Sample.key Sample.w Sample.w'
           "fw.bin" "a.enc" "build/app.bin" "b.enc"
           Sample.firmware Sample.firmware eq_refl eq_refl eq_refl H).
Defined.

(** ** Changing one block of an artifact *)

Module TamperFacts.
Import AES CBC.

Lemma bytes_of_state_xor (s t : state) :
  bytes_of_state (xor_state s t)
  = xor_bytes (bytes_of_state s) (bytes_of_state t).
Proof. destruct s as [[] [] [] []], t as [[] [] [] []]. reflexivity. Qed.

Lemma xor_word_assoc (u v x : word) :
  xor_word (xor_word u v) x = xor_word u (xor_word v x).
Proof.
  destruct u, v, x. cbv [xor_word w0 w1 w2 w3]. now rewrite !bxor_assoc.
Qed.

Lemma xor_state_assoc (s t u : state) :
  xor_state (xor_state s t) u = xor_state s (xor_state t u).
Proof.
  destruct s, t, u. cbv [xor_state col0 col1 col2 col3].
  now rewrite !xor_word_assoc.
Qed.

Lemma bytes_of_blocks_app (xs ys : list state) :
  bytes_of_blocks (xs ++ ys) = bytes_of_blocks xs ++ bytes_of_blocks ys.
Proof.
  unfold bytes_of_blocks. now rewrite List.map_app, List.concat_app.
Qed.

Lemma bytes_of_blocks_cons (x : state) (xs : list state) :
  bytes_of_blocks (x :: xs) = bytes_of_state x ++ bytes_of_blocks xs.
Proof. reflexivity. Qed.

Lemma blocks_of_bytes_app_blocks (xs : list state) (l : list byte) :
  blocks_of_bytes (bytes_of_blocks xs ++ l)
  = match blocks_of_bytes l with
    | Some ys => Some (xs ++ ys)
    | None => None
    end.
Proof.
  induction xs as [|x xs IH].
  - cbn. now destruct (blocks_of_bytes l).
  - rewrite bytes_of_blocks_cons, <- app_assoc.
    rewrite BlockFacts.blocks_of_bytes_app, IH.
    now destruct (blocks_of_bytes l).
Qed.

Lemma last_cons_default (x : state) (xs : list state) (d : state) :
  List.last (x :: xs) d = List.last xs x.
Proof.
  revert x d. induction xs as [|a xs IH]; intros x d; [reflexivity|].
  change (List.last (x :: a :: xs) d) with (List.last (a :: xs) d).
  now rewrite !IH.
Qed.

(** Decryption is local: a plaintext block depends on its ciphertext block
    and on the one before. *)
Lemma decrypt_blocks_middle (rks : list state) (xs : list state)
      (m y : state) (ys : list state) :
  forall prev,
    decrypt_blocks rks prev (xs ++ m :: y :: ys)
    = decrypt_blocks rks prev xs
      ++ xor_state (InvCipher rks m) (List.last xs prev)
      :: xor_state (InvCipher rks y) m
      :: decrypt_blocks rks y ys.
Proof.
  induction xs as [|x xs IH]; intros prev; [reflexivity|].
  cbn [app decrypt_blocks]. rewrite IH, (last_cons_default x xs prev).
  reflexivity.
Qed.

Lemma length_xor_bytes (l1 l2 : list byte) :
  length l1 = length l2 -> length (xor_bytes l1 l2) = length l1.
Proof.
  intros H. unfold xor_bytes.
  rewrite List.length_map, List.length_combine. lia.
Qed.

(** A successful run of [decrypt_firmware] tells what [unseal] returned. *)
Lemma decrypt_firmware_Ok_inv (key : list byte) (inp out : string)
      (w : world) (data p : list byte) :
  files w !! inp = Some data ->
  decrypt_firmware key inp out w = (Ok tt, with_file out p w) ->
  unseal key data = Ok p.
Proof.
  intros Hd. rewrite ToolFacts.decrypt_firmware_run, Hd.
  destruct (unseal key data) as [p0|e]; [|discriminate].
  intros [= E]. apply (f_equal (fun m => m !! out)) in E.
  rewrite !lookup_insert_eq in E. congruence.
Qed.

(** The padding sits in the last block: if [unpad] accepts [front ++ back]
    with [back] at least a block long, it accepts any other front of the
    same length, and returns it in place of the old one. *)
Lemma unpad_change_front (front front' back p : list byte) :
  length front' = length front -> 16 <= length back ->
  length (front ++ back) mod 16 = 0 ->
  Padding.unpad (front ++ back) 16 = Ok p ->
  exists body,
    p = front ++ body
    /\ Padding.unpad (front' ++ back) 16 = Ok (front' ++ body).
Proof.
  intros Hlen Hback Hmod Hu.
  destruct (PaddingFacts.unpad_Ok_inv _ _ _ Hu) as (n & E & Hn).
  set (k := length back - n).
  assert (back = take k back ++ drop k back) as Hb by (symmetry; apply take_drop).
  assert (length (drop k back) = n) as Hd by (rewrite length_drop; lia).
  rewrite Hb, app_assoc in E.
  apply app_inj_2 in E; [|now rewrite Hd, length_replicate].
  destruct E as [E1 E2].
  exists (take k back). split; [now symmetry|].
  replace (front' ++ back)
    with ((front' ++ take k back) ++ replicate n (bchr n))
    by (now rewrite <- E2, <- app_assoc, take_drop).
  apply PaddingFacts.unpad_app_padding; [lia | lia |].
  rewrite length_app in Hmod. rewrite length_app, length_take, Hlen.
  replace (length front + k `min` length back + n)
    with (length front + length back) by lia.
  exact Hmod.
Qed.

End TamperFacts.

Module TamperProofs.
Import AES CBC TamperFacts.

(** [unseal] after the IV has been combined with [delta]. *)
Lemma unseal_flip_iv (key iv ct delta p : list byte) :
  key_size_ok (length key) = true ->
  length iv = 16 -> length delta = 16 -> 16 <= length p ->
  unseal key (iv ++ ct) = Ok p ->
  unseal key (xor_bytes iv delta ++ ct)
  = Ok (xor_bytes (take 16 p) delta ++ drop 16 p).
Proof.
  intros Hk Hiv Hdl Hp U.
  destruct (CBCFacts.new_Ok key iv Hk Hiv) as (ivs & Eiv & Hnew).
  destruct (BlockFacts.blocks_of_bytes_single delta Hdl) as (ds & _ & Eds).
  assert (xor_bytes iv delta = bytes_of_state (xor_state ivs ds)) as Ex
      by (now rewrite bytes_of_state_xor, <- Eiv, <- Eds).
  destruct (CBCFacts.new_Ok key (xor_bytes iv delta) Hk) as (s & Es & Hnew').
  { rewrite Ex. apply BlockFacts.length_bytes_of_state. }
  rewrite Ex in Es. apply IVFacts.bytes_of_state_inj in Es. subst s.
  rewrite ToolFacts.unseal_app in U by exact Hiv.
  rewrite ToolFacts.unseal_app
    by (rewrite Ex; apply BlockFacts.length_bytes_of_state).
  rewrite Hnew in U. rewrite Hnew'. unfold decrypt in *.
  cbn [round_keys chain] in *.
  destruct (blocks_of_bytes ct) as [cs|]; [|discriminate].
  set (rks := KeyExpansion key) in *.
  assert (length (bytes_of_blocks (decrypt_blocks rks ivs cs)) mod 16 = 0) as Hm.
  { rewrite BlockFacts.length_bytes_of_blocks, Nat.mul_comm.
    apply Nat.Div0.mod_mul. }
  pose proof (WrongKeyFacts.unpad_Ok_is_pad _ _ U Hm) as Hpad.
  apply (f_equal length) in Hpad.
  rewrite BlockFacts.length_bytes_of_blocks, length_decrypt_blocks,
    PaddingFacts.length_pad in Hpad.
  destruct cs as [|c1 [|c2 cs]].
  { cbn [length] in Hpad. lia. }
  { cbn [length] in Hpad.
    pose proof (Nat.div_mod_eq (length p) 16).
    pose proof (Nat.mod_upper_bound (length p) 16). lia. }
  cbn [decrypt_blocks] in U, Hm |- *.
  rewrite !bytes_of_blocks_cons in U, Hm.
  rewrite !bytes_of_blocks_cons.
  rewrite <- xor_state_assoc, bytes_of_state_xor, <- Eds.
  set (front := bytes_of_state (xor_state (InvCipher rks c1) ivs)) in *.
  set (back := bytes_of_state (xor_state (InvCipher rks c2) c1)
               ++ bytes_of_blocks (decrypt_blocks rks c2 cs)) in *.
  assert (length front = 16) as Hf by apply BlockFacts.length_bytes_of_state.
  destruct (unpad_change_front front (xor_bytes front delta) back p)
    as (body & Ep & U');
    [rewrite length_xor_bytes; congruence
    | unfold back; rewrite length_app, BlockFacts.length_bytes_of_state; lia
    | exact Hm | exact U |].
  rewrite U'. subst p.
  replace (take 16 (front ++ body)) with front
    by (rewrite <- Hf; symmetry; apply take_app_length).
  replace (drop 16 (front ++ body)) with body
    by (rewrite <- Hf; symmetry; apply drop_app_length).
  reflexivity.
Qed.

(** [unseal] after one ciphertext block, not one of the last two, has been
    replaced. *)
Lemma unseal_change_block (key pre mid mid' post p : list byte) :
  key_size_ok (length key) = true ->
  16 <= length pre -> length pre mod 16 = 0 ->
  length mid = 16 -> length mid' = 16 -> 32 <= length post ->
  unseal key (pre ++ mid ++ post) = Ok p ->
  exists p',
    unseal key (pre ++ mid' ++ post) = Ok p'
    /\ length p' = length p
    /\ take (length pre - 16) p' = take (length pre - 16) p
    /\ drop (length pre + 16) p' = drop (length pre + 16) p.
Proof.
  intros Hk Hpre Hprem Hmid Hmid' Hpost U.
  assert (exists iv pre', pre = iv ++ pre' /\ length iv = 16
                          /\ length pre' mod 16 = 0)
    as (iv & pre' & -> & Hiv & Hpre'm).
  { exists (take 16 pre), (drop 16 pre).
    split; [symmetry; apply take_drop|].
    split; [rewrite length_take; lia|].
    rewrite length_drop.
    pose proof (Nat.div_mod_eq (length pre) 16) as Hd. rewrite Hprem in Hd.
    replace (length pre - 16) with ((length pre / 16 - 1) * 16) by lia.
    apply Nat.Div0.mod_mul. }
  clear Hpre Hprem.
  replace (length (iv ++ pre') - 16) with (length pre')
    by (rewrite length_app; lia).
  replace (length (iv ++ pre') + 16) with (length pre' + 16 + 16)
    by (rewrite length_app; lia).
  destruct (CBCFacts.new_Ok key iv Hk Hiv) as (ivs & _ & Hnew).
  apply BlockFacts.blocks_of_bytes_Some_iff in Hpre'm.
  destruct Hpre'm as [xs Hxs].
  apply BlockFacts.bytes_of_blocks_of_bytes in Hxs. subst pre'.
  destruct (BlockFacts.blocks_of_bytes_single mid Hmid) as (m & _ & Em).
  destruct (BlockFacts.blocks_of_bytes_single mid' Hmid') as (m' & _ & Em').
  rewrite <- !app_assoc in U. rewrite <- !app_assoc.
  rewrite ToolFacts.unseal_app in U by exact Hiv.
  rewrite ToolFacts.unseal_app by exact Hiv.
  rewrite Hnew in U. rewrite Hnew. unfold decrypt in *.
  cbn [round_keys chain] in *.
  rewrite Em, blocks_of_bytes_app_blocks,
    BlockFacts.blocks_of_bytes_app in U.
  rewrite Em', blocks_of_bytes_app_blocks,
    BlockFacts.blocks_of_bytes_app.
  destruct (blocks_of_bytes post) as [ys|] eqn:Hys; [|discriminate].
  apply BlockFacts.bytes_of_blocks_of_bytes in Hys.
  assert (length post = 16 * length ys) as Hlys
      by (rewrite <- Hys; apply BlockFacts.length_bytes_of_blocks).
  destruct ys as [|y1 [|y2 ys]]; [cbn [length] in Hlys; lia
                                 | cbn [length] in Hlys; lia |].
  set (rks := KeyExpansion key) in *.
  rewrite decrypt_blocks_middle in U. rewrite decrypt_blocks_middle.
  rewrite bytes_of_blocks_app, !bytes_of_blocks_cons in U.
  rewrite bytes_of_blocks_app, !bytes_of_blocks_cons.
  set (P1 := bytes_of_blocks (decrypt_blocks rks ivs xs)) in *.
  set (back := bytes_of_blocks (decrypt_blocks rks y1 (y2 :: ys))) in *.
  set (q1 := bytes_of_state (xor_state (InvCipher rks m) (List.last xs ivs))) in *.
  set (q2 := bytes_of_state (xor_state (InvCipher rks y1) m)) in *.
  set (q1' := bytes_of_state (xor_state (InvCipher rks m') (List.last xs ivs))).
  set (q2' := bytes_of_state (xor_state (InvCipher rks y1) m')).
  assert (length P1 = length (bytes_of_blocks xs)) as HP1.
  { unfold P1.
    now rewrite !BlockFacts.length_bytes_of_blocks, length_decrypt_blocks. }
  assert (length back = 16 * length (y2 :: ys)) as Hback.
  { unfold back.
    now rewrite BlockFacts.length_bytes_of_blocks, length_decrypt_blocks. }
  assert (length q1 = 16 /\ length q2 = 16 /\ length q1' = 16 /\ length q2' = 16)
    as (Hq1 & Hq2 & Hq1' & Hq2')
      by (repeat split; apply BlockFacts.length_bytes_of_state).
  replace (P1 ++ q1 ++ q2 ++ back) with ((P1 ++ q1 ++ q2) ++ back) in U
    by (now rewrite <- !app_assoc).
  replace (P1 ++ q1' ++ q2' ++ back) with ((P1 ++ q1' ++ q2') ++ back)
    by (now rewrite <- !app_assoc).
  destruct (unpad_change_front (P1 ++ q1 ++ q2) (P1 ++ q1' ++ q2') back p)
    as (body & Ep & U'); [| | | exact U |].
  { rewrite !length_app. lia. }
  { rewrite Hback. cbn [length]. lia. }
  { rewrite !length_app, HP1, Hq1, Hq2, Hback,
      BlockFacts.length_bytes_of_blocks.
    replace (16 * length xs + (16 + 16) + 16 * length (y2 :: ys))
      with ((length xs + 2 + length (y2 :: ys)) * 16) by lia.
    apply Nat.Div0.mod_mul. }
  exists ((P1 ++ q1' ++ q2') ++ body). split; [exact U'|].
  subst p. rewrite <- HP1.
  split; [rewrite !length_app; lia|]. split.
  - rewrite <- !app_assoc. now rewrite !take_app_length.
  - replace (length P1 + 16 + 16) with (length (P1 ++ q1' ++ q2')) at 1
      by (rewrite !length_app; lia).
    replace (length P1 + 16 + 16) with (length (P1 ++ q1 ++ q2))
      by (rewrite !length_app; lia).
    now rewrite !drop_app_length.
Qed.

End TamperProofs.

(** X7. Flipping bits of the IV goes unnoticed: if an artifact decrypts to
    contents [p] of at least 16 octets, the artifact with [delta] combined
    into its first 16 octets decrypts without error, to [p] with [delta]
    combined into its first 16 octets. *)
Theorem iv_tampering_undetected (key : list byte) (w w' : world)
        (enc enc' out : string) (iv ct delta p : list byte) :
  length key = 32 -> length iv = 16 -> length delta = 16 ->
  16 <= length p ->
  files w !! enc = Some (iv ++ ct) ->
  decrypt_firmware key enc out w = (Ok tt, with_file out p w) ->
  files w' !! enc' = Some (xor_bytes iv delta ++ ct) ->
  decrypt_firmware key enc' out w'
  = (Ok tt, with_file out (xor_bytes (take 16 p) delta ++ drop 16 p) w').
Proof.
  intros Hk Hiv Hdl Hp Hf Hrun Hf'. apply key_size_ok_32 in Hk.
  pose proof (TamperFacts.decrypt_firmware_Ok_inv _ _ _ _ _ _ Hf Hrun) as U.
  rewrite decrypt_firmware_run, Hf'.
  now rewrite (TamperProofs.unseal_flip_iv key iv ct delta p Hk Hiv Hdl Hp U).
Qed.

Lemma iv_tampering_undetected_witness :
  length Sample.key = 32 /\ length Tampered.iv = 16
  /\ length Tampered.delta = 16 /\ 16 <= length Tampered.firmware
  /\ files Tampered.w !! "fw.enc"%string
     = Some (Tampered.iv ++ Tampered.block1 ++ Tampered.blocks23)
  /\ decrypt_firmware Sample.key "fw.enc" "out.bin" Tampered.w
     = (Ok tt, with_file "out.bin" Tampered.firmware Tampered.w)
  /\ files Tampered.w !! "iv.enc"%string
     = Some (xor_bytes Tampered.iv Tampered.delta
             ++ Tampered.block1 ++ Tampered.blocks23)
  /\ decrypt_firmware Sample.key "iv.enc" "out.bin" Tampered.w
     = (Ok tt,
        with_file "out.bin"
          (xor_bytes (take 16 Tampered.firmware) Tampered.delta
           ++ drop 16 Tampered.firmware) Tampered.w).
Proof.
  assert (16 <= length Tampered.firmware) as Hp by (vm_compute; lia).
  assert (decrypt_firmware Sample.key "fw.enc" "out.bin" Tampered.w
          = (Ok tt, with_file "out.bin" Tampered.firmware Tampered.w)) as Hrun
      by (vm_compute; reflexivity).
  split; [reflexivity|]. split; [reflexivity|]. split; [reflexivity|].
  split; [exact Hp|]. split; [reflexivity|]. split; [exact Hrun|].
  split; [reflexivity|].
  exact (iv_tampering_undetected Sample.key Tampered.w Tampered.w
           "fw.enc" "iv.enc" "out.bin" Tampered.iv
           (Tampered.block1 ++ Tampered.blocks23) Tampered.delta
           Tampered.firmware eq_refl eq_refl eq_refl Hp eq_refl Hrun eq_refl).
Defined.

(** X8. Replacing a ciphertext block other than the last two goes
    unnoticed: if the artifact [pre ++ mid ++ post] decrypts to [p], where
    [pre] is the IV and any number of blocks, [mid] is one block and [post]
    is at least two blocks, then with any other block in place of [mid] it
    decrypts without error, to contents of the same length that differ
    from [p] at most in the 32 octets of the replaced block and the next. *)
Theorem ciphertext_tampering_undetected (key : list byte) (w w' : world)
        (enc enc' out : string) (pre mid mid' post p : list byte) :
  length key = 32 ->
  16 <= length pre -> length pre mod 16 = 0 ->
  length mid = 16 -> length mid' = 16 -> 32 <= length post ->
  files w !! enc = Some (pre ++ mid ++ post) ->
  decrypt_firmware key enc out w = (Ok tt, with_file out p w) ->
  files w' !! enc' = Some (pre ++ mid' ++ post) ->
  exists p',
    decrypt_firmware key enc' out w' = (Ok tt, with_file out p' w')
    /\ length p' = length p
    /\ take (length pre - 16) p' = take (length pre - 16) p
    /\ drop (length pre + 16) p' = drop (length pre + 16) p.
Proof.
  intros Hk Hpre Hprem Hmid Hmid' Hpost Hf Hrun Hf'.
  apply key_size_ok_32 in Hk.
  pose proof (TamperFacts.decrypt_firmware_Ok_inv _ _ _ _ _ _ Hf Hrun) as U.
  destruct (TamperProofs.unseal_change_block key pre mid mid' post p
              Hk Hpre Hprem Hmid Hmid' Hpost U) as (p' & U' & Hrest).
  exists p'. split; [|exact Hrest].
  now rewrite decrypt_firmware_run, Hf', U'.
Qed.

Lemma ciphertext_tampering_undetected_witness :
  length Sample.key = 32
  /\ 16 <= length Tampered.iv /\ length Tampered.iv mod 16 = 0
  /\ length Tampered.block1 = 16 /\ length Tampered.other_block = 16
  /\ 32 <= length Tampered.blocks23
  /\ files Tampered.w !! "fw.enc"%string
     = Some (Tampered.iv ++ Tampered.block1 ++ Tampered.blocks23)
  /\ decrypt_firmware Sample.key "fw.enc" "out.bin" Tampered.w
     = (Ok tt, with_file "out.bin" Tampered.firmware Tampered.w)
  /\ files Tampered.w !! "c1.enc"%string
     = Some (Tampered.iv ++ Tampered.other_block ++ Tampered.blocks23)
  /\ exists p',
      decrypt_firmware Sample.key "c1.enc" "out.bin" Tampered.w
      = (Ok tt, with_file "out.bin" p' Tampered.w)
      /\ length p' = length Tampered.firmware
      /\ take (length Tampered.iv - 16) p'
         = take (length Tampered.iv - 16) Tampered.firmware
      /\ drop (length Tampered.iv + 16) p'
         = drop (length Tampered.iv + 16) Tampered.firmware.
Proof.
  assert (16 <= length Tampered.iv) as H1 by (vm_compute; lia).
  assert (32 <= length Tampered.blocks23) as H2 by (vm_compute; lia).
  assert (decrypt_firmware Sample.key "fw.enc" "out.bin" Tampered.w
          = (Ok tt, with_file "out.bin" Tampered.firmware Tampered.w)) as Hrun
      by (vm_compute; reflexivity).
  split; [reflexivity|]. split; [exact H1|]. split; [reflexivity|].
  split; [reflexivity|]. split; [reflexivity|]. split; [exact H2|].
  split; [reflexivity|]. split; [exact Hrun|]. split; [reflexivity|].
  exact (ciphertext_tampering_undetected Sample.key Tampered.w Tampered.w
           "fw.enc" "c1.enc" "out.bin" Tampered.iv Tampered.block1
           Tampered.other_block Tampered.blocks23 Tampered.firmware
           eq_refl H1 eq_refl eq_refl eq_refl H2 eq_refl Hrun eq_refl).
Defined.

(** X16. What a successful decryption says about its input: the input
    file has at least 32 octets, a multiple of 16, and the contents
    written are between 17 and 32 octets shorter. *)
Theorem decrypted_size (key : list byte) (w : world)
        (input_path output_path : string) (data p : list byte) :
  files w !! input_path = Some data ->
  decrypt_firmware key input_path output_path w
  = (Ok tt, with_file output_path p w) ->
  32 <= length data
  /\ length data mod 16 = 0
  /\ length p + 17 <= length data <= length p + 32.
Proof.
  intros Hd Hrun.
  pose proof (TamperFacts.decrypt_firmware_Ok_inv _ _ _ _ _ _ Hd Hrun) as U.
  unfold unseal, BLOCK_SIZE in U.
  destruct (CBC.new key (take 16 data)) as [c|] eqn:Hnew; [|discriminate].
  assert (length (take 16 data) = 16) as Htake.
  { unfold CBC.new in Hnew.
    destruct (negb _); [discriminate|].
    destruct (Nat.eq_dec (length (take 16 data)) 16) as [E|E]; [exact E|].
    pose proof (BlockFacts.blocks_of_bytes_not_single _ E) as H.
    destruct (AES.blocks_of_bytes (take 16 data)) as [[|s [|s' bs]]|];
      try discriminate. destruct H. }
  rewrite length_take in Htake.
  destruct (CBC.decrypt c (drop 16 data)) as [pp|] eqn:Hdec; [|discriminate].
  assert (length (drop 16 data) mod 16 = 0) as Hm.
  { destruct (Nat.eq_dec (length (drop 16 data) mod 16) 0) as [E|E];
      [exact E|].
    rewrite (CBCFacts.decrypt_unaligned c _ E) in Hdec. discriminate. }
  destruct (CBCFacts.decrypt_aligned c _ Hm) as (pp' & Hdec' & Hlen).
  rewrite Hdec in Hdec'. injection Hdec' as <-.
  destruct (PaddingFacts.unpad_Ok_inv _ _ _ U) as (n & Epp & Hn).
  apply (f_equal length) in Epp.
  rewrite length_app, length_replicate in Epp.
  rewrite length_drop in Hlen, Hm.
  assert (16 <= length data - 16) as H16.
  { pose proof (Nat.div_mod_eq (length data - 16) 16) as Hdm.
    rewrite Hm in Hdm. lia. }
  split; [lia|]. split; [|lia].
  pose proof (Nat.div_mod_eq (length data - 16) 16) as Hdm.
  rewrite Hm in Hdm.
  replace (length data) with ((length data - 16) / 16 * 16 + 1 * 16) by lia.
  rewrite Nat.Div0.mod_add. apply Nat.Div0.mod_mul.
Qed.

Lemma decrypted_size_witness :
  files Tampered.w !! "fw.enc"%string = Some Tampered.artifact
  /\ decrypt_firmware Sample.key "fw.enc" "out.bin" Tampered.w
     = (Ok tt, with_file "out.bin" Tampered.firmware Tampered.w)
  /\ 32 <= length Tampered.artifact
  /\ length Tampered.artifact mod 16 = 0
  /\ length Tampered.firmware + 17 <= length Tampered.artifact
     <= length Tampered.firmware + 32.
Proof.
  assert (decrypt_firmware Sample.key "fw.enc" "out.bin" Tampered.w
          = (Ok tt, with_file "out.bin" Tampered.firmware Tampered.w)) as Hrun
      by (vm_compute; reflexivity).
  split; [reflexivity|]. split; [exact Hrun|].
  exact (decrypted_size Sample.key Tampered.w "fw.enc" "out.bin"
           Tampered.artifact Tampered.firmware eq_refl Hrun).
Defined.

(** ** Strings *)

Module StringFacts.

Lemma str_app_cons (x : ascii) (a b : string) :
  (String x a ++ b)%string = String x (a ++ b).
Proof. reflexivity. Qed.

Lemma str_app_assoc (a b c : string) :
  ((a ++ b) ++ c)%string = (a ++ b ++ c)%string.
Proof.
  induction a as [|x a IH]; [reflexivity|].
  rewrite !str_app_cons. f_equal. exact IH.
Qed.

Lemma str_app_nil_r (a : string) : (a ++ EmptyString)%string = a.
Proof.
  induction a as [|x a IH]; [reflexivity|].
  rewrite str_app_cons. f_equal. exact IH.
Qed.

Lemma str_app_inv_head (a b c : string) :
  (a ++ b)%string = (a ++ c)%string -> b = c.
Proof.
  induction a as [|x a IH]; [auto|].
  rewrite !str_app_cons. intros [= H]. auto.
Qed.

Lemma starts_with_app (p s : string) : starts_with p (p ++ s) = true.
Proof.
  induction p as [|a p IH]; [reflexivity|].
  rewrite str_app_cons. cbn [starts_with]. now rewrite Ascii.eqb_refl, IH.
Qed.




Lemma count_char_app (c : ascii) (s t : string) :
  count_char c (s ++ t) = count_char c s + count_char c t.
Proof.
  induction s as [|d s IH]; [reflexivity|].
  rewrite str_app_cons. cbn [count_char]. rewrite IH. lia.
Qed.

(** *** [str.replace] *)

Lemma replace_from_skip (old new s1 s2 : string) :
  replace_from (String.length s1) old new (s1 ++ s2)
  = replace_from 0 old new s2.
Proof.
  induction s1 as [|c s1 IH]; [reflexivity|].
  rewrite str_app_cons. exact IH.
Qed.

Lemma replace_at_head (o : ascii) (old' new s : string) :
  replace_from 0 (String o old') new (String o old' ++ s)
  = (new ++ replace_from 0 (String o old') new s)%string.
Proof.
  rewrite str_app_cons. cbn [replace_from].
  rewrite <- str_app_cons, starts_with_app.
  change (String.length (String o old') - 1) with (String.length old' - 0).
  rewrite Nat.sub_0_r. now rewrite replace_from_skip.
Qed.

Lemma replace_no_match (old new : string) (c : ascii) (s : string) :
  starts_with old (String c s) = false ->
  replace_from 0 old new (String c s) = String c (replace_from 0 old new s).
Proof. intros H. cbn [replace_from]. now rewrite H. Qed.

(** A string in which [old] does not occur is left as it is. *)
Lemma str_replace_absent (old new s : string) :
  str_contains old s = false -> str_replace s old new = s.
Proof.
  unfold str_replace. induction s as [|c s IH]; [reflexivity|].
  cbn [str_contains]. intros H. apply orb_false_iff in H as [H1 H2].
  rewrite replace_no_match by exact H1. now rewrite IH.
Qed.

(** No occurrence of [.enc] can start in [s] and end in a following
    [.enc]: the dot occurs in [.enc] only once. *)
Lemma starts_with_enc_app (s : string) :
  s <> EmptyString ->
  starts_with ".enc" (s ++ ".enc") = starts_with ".enc" s.
Proof.
  intros Hs.
  destruct s as [|c0 [|c1 [|c2 [|c3 s]]]]; [congruence| | | |];
    rewrite ?str_app_cons; cbn [starts_with];
    change (EmptyString ++ ".enc")%string with ".enc"%string;
    cbn [starts_with]; cbn; rewrite ?andb_false_r; reflexivity.
Qed.

Lemma str_replace_enc_suffix (base : string) :
  str_contains ".enc" base = false ->
  str_replace (base ++ ".enc") ".enc" "_decrypted.bin"
  = (base ++ "_decrypted.bin")%string.
Proof.
  unfold str_replace. induction base as [|c base IH]; [reflexivity|].
  cbn [str_contains]. intros H. apply orb_false_iff in H as [H1 H2].
  rewrite str_app_cons, replace_no_match.
  - rewrite str_app_cons. now rewrite IH.
  - rewrite <- str_app_cons. now rewrite starts_with_enc_app.
Qed.

End StringFacts.

(** ** The command line driver, all modes *)

(** X9. Usage errors: when no key generation is asked for and the input
    is missing from the command line, or, in encrypt mode, the version is
    missing or the input file does not exist, [main] exits with status 1
    and the world is left as it was. *)
Theorem main_usage_errors (key : list byte) (a : args) (w : world) :
  generate_key a = false ->
  truthy (input a) = false
  \/ (decrypt a = false
      /\ (truthy (version a) = false
          \/ exists inp, input a = Some inp /\ files w !! inp = None)) ->
  main key a w = (Raise (SystemExit 1), w).
Proof.
  intros Hg H. unfold main. rewrite Hg.
  destruct H as [Hi | (Hd & H)].
  - rewrite Hi. cbn [negb]. now destruct (decrypt a).
  - rewrite Hd. destruct (truthy (input a)) eqn:Hi; [|reflexivity].
    cbn [negb]. destruct H as [Hv | (inp & Hinp & Hnone)].
    + now rewrite Hv.
    + destruct (truthy (version a)); [|reflexivity]. cbn [negb].
      rewrite Hinp. cbn [from_option id].
      unfold bind, os_path_exists. rewrite Hnone.
      rewrite bool_decide_eq_false_2; [reflexivity|].
      intros [? ?]. discriminate.
Qed.

Lemma main_usage_errors_witness :
  generate_key Cases.absent_input = false
  /\ (truthy (input Cases.absent_input) = false
      \/ (decrypt Cases.absent_input = false
          /\ (truthy (version Cases.absent_input) = false
              \/ exists inp, input Cases.absent_input = Some inp
                             /\ files Sample.w !! inp = None)))
  /\ main Sample.key Cases.absent_input Sample.w
     = (Raise (SystemExit 1), Sample.w).
Proof.
  assert (truthy (input Cases.absent_input) = false
          \/ (decrypt Cases.absent_input = false
              /\ (truthy (version Cases.absent_input) = false
                  \/ exists inp, input Cases.absent_input = Some inp
                                 /\ files Sample.w !! inp = None))) as H.
  { right. split; [reflexivity|]. right.
    exists "absent.bin"%string. split; reflexivity. }
  split; [reflexivity|]. split; [exact H|].
  exact (main_usage_errors Sample.key Cases.absent_input Sample.w eq_refl H).
Defined.



(** X11. Decrypt mode without [--output], on an input name [base.enc]
    where [.enc] does not occur in [base]: the output file is
    [base_decrypted.bin], a file other than the input. *)
Theorem decrypt_default_output_name (key : list byte) (a : args) (w : world)
        (base : string) :
  generate_key a = false -> decrypt a = true ->
  input a = Some (base ++ ".enc")%string ->
  truthy (output a) = false ->
  str_contains ".enc" base = false ->
  main key a w
  = decrypt_firmware key (base ++ ".enc") (base ++ "_decrypted.bin") w
  /\ (base ++ "_decrypted.bin")%string <> (base ++ ".enc")%string.
Proof.
  intros Hg Hd Hi Ho Hb. split.
  - rewrite (MainFacts.main_decrypt_run key a w (base ++ ".enc"))
      by (try assumption; destruct base; discriminate).
    rewrite Ho. now rewrite StringFacts.str_replace_enc_suffix.
  - intros E. apply StringFacts.str_app_inv_head in E. discriminate.
Qed.

Lemma decrypt_default_output_name_witness :
  generate_key Cases.decrypt_enc = false
  /\ decrypt Cases.decrypt_enc = true
  /\ input Cases.decrypt_enc = Some ("fw" ++ ".enc")%string
  /\ truthy (output Cases.decrypt_enc) = false
  /\ str_contains ".enc" "fw" = false
  /\ main Sample.key Cases.decrypt_enc Cases.w_img
     = decrypt_firmware Sample.key ("fw" ++ ".enc") ("fw" ++ "_decrypted.bin")
                        Cases.w_img
  /\ ("fw" ++ "_decrypted.bin")%string <> ("fw" ++ ".enc")%string.
Proof.
  split; [reflexivity|]. split; [reflexivity|]. split; [reflexivity|].
  split; [reflexivity|]. split; [reflexivity|].
  apply (decrypt_default_output_name Sample.key Cases.decrypt_enc
           Cases.w_img "fw"); reflexivity.
Defined.

(** X12. Decrypt mode without [--output], on an input name in which
    [.enc] does not occur: the output name is the input name, so a
    successful run leaves the decrypted contents in the input file, in
    place of the artifact. *)
Theorem decrypt_without_enc_overwrites_input (key : list byte) (a : args)
        (w : world) (inp out : string) (p : list byte) :
  generate_key a = false -> decrypt a = true ->
  input a = Some inp -> inp <> EmptyString ->
  truthy (output a) = false ->
  str_contains ".enc" inp = false ->
  decrypt_firmware key inp out w = (Ok tt, with_file out p w) ->
  main key a w = (Ok tt, with_file inp p w)
  /\ files (snd (main key a w)) !! inp = Some p.
Proof.
  intros Hg Hd Hi Hne Ho Hc Hrun.
  assert (main key a w = (Ok tt, with_file inp p w)) as E.
  { rewrite (MainFacts.main_decrypt_run key a w inp) by assumption.
    rewrite Ho, StringFacts.str_replace_absent by exact Hc.
    destruct (files w !! inp) as [data|] eqn:Hdata.
    - pose proof (TamperFacts.decrypt_firmware_Ok_inv _ _ _ _ _ _ Hdata Hrun)
        as U.
      now rewrite decrypt_firmware_run, Hdata, U.
    - rewrite decrypt_firmware_run, Hdata in Hrun. discriminate. }
  split; [exact E|].
  rewrite E. cbn [snd]. rewrite files_with_file. apply lookup_insert_eq.
Qed.

Lemma decrypt_without_enc_overwrites_input_witness :
  generate_key Cases.decrypt_img = false
  /\ decrypt Cases.decrypt_img = true
  /\ input Cases.decrypt_img = Some "fw.img"%string
  /\ "fw.img"%string <> EmptyString
  /\ truthy (output Cases.decrypt_img) = false
  /\ str_contains ".enc" "fw.img" = false
  /\ decrypt_firmware Sample.key "fw.img" "out.bin" Cases.w_img
     = (Ok tt, with_file "out.bin" Sample.firmware Cases.w_img)
  /\ main Sample.key Cases.decrypt_img Cases.w_img
     = (Ok tt, with_file "fw.img" Sample.firmware Cases.w_img)
  /\ files (snd (main Sample.key Cases.decrypt_img Cases.w_img))
       !! "fw.img"%string
     = Some Sample.firmware.
Proof.
  assert ("fw.img"%string <> EmptyString) as Hne by discriminate.
  assert (decrypt_firmware Sample.key "fw.img" "out.bin" Cases.w_img
          = (Ok tt, with_file "out.bin" Sample.firmware Cases.w_img)) as Hrun
      by (vm_compute; reflexivity).
  split; [reflexivity|]. split; [reflexivity|]. split; [reflexivity|].
  split; [exact Hne|]. split; [reflexivity|]. split; [reflexivity|].
  split; [exact Hrun|].
  exact (decrypt_without_enc_overwrites_input Sample.key Cases.decrypt_img
           Cases.w_img "fw.img" "out.bin" Sample.firmware
           eq_refl eq_refl eq_refl Hne eq_refl eq_refl Hrun).
Defined.



(** X14. The descriptor has one comma and one line break more than the
    version string given: it is one line of two comma-separated fields
    exactly when the version contains neither character; nothing is
    escaped. *)
Theorem descriptor_separators (version : string) :
  count_char ","%char (latest_txt version)
  = S (count_char ","%char version)
  /\ count_char (Ascii.ascii_of_nat 10) (latest_txt version)
     = S (count_char (Ascii.ascii_of_nat 10) version).
Proof.
  unfold latest_txt. rewrite !StringFacts.count_char_app. split.
  - replace (count_char ","%char ",PUT_FIRMWARE_FILE_ID_HERE") with 1
      by reflexivity.
    replace (count_char ","%char newline) with 0 by reflexivity. lia.
  - replace (count_char (Ascii.ascii_of_nat 10) ",PUT_FIRMWARE_FILE_ID_HERE")
      with 0 by reflexivity.
    replace (count_char (Ascii.ascii_of_nat 10) newline) with 1
      by reflexivity.
    lia.
Qed.

(** ** The text printed for a generated key *)

Module KeyTextFacts.
Import StringFacts.

Lemma parse_format_02X : forall b, parse_02X (format_02X b) = b.
Proof. by_bytes1. Qed.

Lemma format_octet_app (b : byte) (s : string) :
  (format_octet b ++ s)%string
  = String "0" (String "x"
      (String (hex_upper_digit (Byte.to_N b / 16))
         (String (hex_upper_digit (Byte.to_N b mod 16)) s))).
Proof. reflexivity. Qed.

Lemma format_octet_app_inj (b1 b2 : byte) (s1 s2 : string) :
  (format_octet b1 ++ s1)%string = (format_octet b2 ++ s2)%string ->
  b1 = b2 /\ s1 = s2.
Proof.
  rewrite !format_octet_app. intros [= Hh Hl Hs]. split; [|exact Hs].
  rewrite <- (parse_format_02X b1), <- (parse_format_02X b2).
  unfold format_02X. now rewrite Hh, Hl.
Qed.

Lemma str_join_cons2 (sep x y : string) (l : list string) :
  str_join sep (x :: y :: l) = (x ++ sep ++ str_join sep (y :: l))%string.
Proof. reflexivity. Qed.

(** A joined line of formatted octets, followed by anything, gives back
    the octets and what follows, once their number is known. *)
Lemma str_join_octets_inj (l1 : list byte) :
  forall (l2 : list byte) (t1 t2 : string),
    length l1 = length l2 ->
    (str_join ", " (List.map format_octet l1) ++ t1)%string
    = (str_join ", " (List.map format_octet l2) ++ t2)%string ->
    l1 = l2 /\ t1 = t2.
Proof.
  induction l1 as [|x l1 IH]; intros [|y l2] t1 t2 Hlen; try discriminate.
  - intros E. split; [reflexivity | exact E].
  - destruct l1 as [|x' l1], l2 as [|y' l2]; try discriminate.
    + intros E. apply format_octet_app_inj in E as [-> ->]. auto.
    + cbn [List.map]. rewrite !str_join_cons2, !str_app_assoc.
      intros E. apply format_octet_app_inj in E as [-> E].
      apply str_app_inv_head in E.
      destruct (IH (y' :: l2) t1 t2) as [E1 E2];
        [cbn [length] in *; lia | exact E |].
      split; [congruence | exact E2].
Qed.

Lemma key_line_inj (k1 k2 : list byte) (i : nat) (indent t1 t2 : string) :
  length k1 = length k2 ->
  (indent ++ key_line k1 i ++ t1)%string
  = (indent ++ key_line k2 i ++ t2)%string ->
  take 8 (drop i k1) = take 8 (drop i k2).
Proof.
  intros Hlen E. apply str_app_inv_head in E.
  apply str_join_octets_inj in E; [tauto|].
  rewrite !length_take, !length_drop. lia.
Qed.

(** A key of 32 octets is its four lines of eight. *)
Lemma key_of_lines (k : list byte) :
  length k = 32 ->
  k = take 8 (drop 0 k) ++ take 8 (drop 8 k)
      ++ take 8 (drop 16 k) ++ take 8 (drop 24 k).
Proof.
  intros Hk. rewrite drop_0.
  rewrite <- (take_drop 8 k) at 1. f_equal.
  rewrite <- (take_drop 8 (drop 8 k)) at 1. f_equal.
  rewrite drop_drop. change (8 + 8) with 16.
  rewrite <- (take_drop 8 (drop 16 k)) at 1. f_equal.
  rewrite drop_drop. change (16 + 8) with 24.
  symmetry. apply take_ge. rewrite length_drop. lia.
Qed.

Lemma key_from_lines (k1 k2 : list byte) :
  length k1 = 32 -> length k2 = 32 ->
  take 8 (drop 0 k1) = take 8 (drop 0 k2) ->
  take 8 (drop 8 k1) = take 8 (drop 8 k2) ->
  take 8 (drop 16 k1) = take 8 (drop 16 k2) ->
  take 8 (drop 24 k1) = take 8 (drop 24 k2) ->
  k1 = k2.
Proof.
  intros H1 H2 E0 E8 E16 E24.
  rewrite (key_of_lines k1 H1), (key_of_lines k2 H2). congruence.
Qed.

Lemma python_key_lines_inj (k1 k2 : list byte) :
  length k1 = 32 -> length k2 = 32 ->
  python_key_lines k1 = python_key_lines k2 -> k1 = k2.
Proof.
  intros H1 H2. unfold python_key_lines, key_line_starts.
  cbn [List.map app]. intros [= E0 E8 E16 E24].
  apply (key_from_lines k1 k2 H1 H2);
    eapply key_line_inj; try eassumption; congruence.
Qed.

Lemma cpp_key_lines_inj (k1 k2 : list byte) :
  length k1 = 32 -> length k2 = 32 ->
  cpp_key_lines k1 = cpp_key_lines k2 -> k1 = k2.
Proof.
  intros H1 H2. unfold cpp_key_lines, key_line_starts.
  cbn [List.map app Nat.ltb Nat.leb]. intros [= E0 E8 E16 E24].
  apply (key_from_lines k1 k2 H1 H2);
    eapply key_line_inj; try eassumption; congruence.
Qed.

End KeyTextFacts.

(** X15. The text printed for a generated key determines the key: two keys
    of 32 octets with the same Python literal, or the same C++
    initializer, or the same printed text as a whole, are the same key. *)
Theorem key_text_determines_key (k1 k2 : list byte) :
  length k1 = 32 -> length k2 = 32 ->
  (python_key_lines k1 = python_key_lines k2 -> k1 = k2)
  /\ (cpp_key_lines k1 = cpp_key_lines k2 -> k1 = k2)
  /\ (generate_new_key_output k1 = generate_new_key_output k2 -> k1 = k2).
Proof.
  intros H1 H2.
  split; [now apply KeyTextFacts.python_key_lines_inj|].
  split; [now apply KeyTextFacts.cpp_key_lines_inj|].
  unfold generate_new_key_output. intros E.
  apply app_inv_head in E. apply app_inj_1 in E; [|reflexivity].
  now apply KeyTextFacts.python_key_lines_inj.
Qed.

Lemma key_text_determines_key_witness :
  length Sample.key = 32 /\ length AES_KEY = 32
  /\ (python_key_lines Sample.key = python_key_lines AES_KEY
      -> Sample.key = AES_KEY)
  /\ (cpp_key_lines Sample.key = cpp_key_lines AES_KEY
      -> Sample.key = AES_KEY)
  /\ (generate_new_key_output Sample.key = generate_new_key_output AES_KEY
      -> Sample.key = AES_KEY).
Proof.
  split; [reflexivity|]. split; [reflexivity|].
  exact (key_text_determines_key Sample.key AES_KEY eq_refl eq_refl).
Defined.
